(** * Weather-based recommendation agent: the workflow of [UI_main.py]

    A shallow embedding of the orchestration code of [UI_main.py]: the
    module-level credentials, the request state [AgentState], the weather
    client [fetch_weather_data] with its response normalisation, the four
    workflow nodes, the two routing functions, the graph built by
    [create_agent_graph] and the entry point [process_query].

    The two external services are functions of their inputs: the chat model
    ([llm_invoke]) and the HTTP request of the weather provider
    ([requests_get]).  Every request made to either is appended to the
    [calls] log of the [world], next to the two module-level credential
    variables, so that "no call was made" is a statement about that log. *)

From Stdlib Require Import String Ascii List NArith ZArith Bool Lia.
From Stdlib Require Import Floats.SpecFloat.
Import ListNotations.

Local Open Scope string_scope.

(** ** Strings as Python uses them *)

Definition nl : string := String (ascii_of_nat 10) EmptyString.
Definition dq : string := String (ascii_of_nat 34) EmptyString.

(** Truth value of a [str]: [not s] holds exactly for the empty string. *)
Definition str_truthy (s : string) : bool :=
  match s with
  | EmptyString => false
  | String _ _ => true
  end.

(** [a or b] on strings. *)
Definition str_or (a b : string) : string :=
  if str_truthy a then a else b.

(** A [str] is kept as its UTF-8 encoding.  Its characters are the groups
    made of a byte and the continuation bytes ([0x80]-[0xBF]) that follow
    it. *)
Definition is_continuation (c : ascii) : bool :=
  let n := nat_of_ascii c in
  (128 <=? n)%nat && (n <=? 191)%nat.

Definition starts_with_continuation (s : string) : bool :=
  match s with
  | EmptyString => false
  | String c _ => is_continuation c
  end.

Fixpoint characters (s : string) : list string :=
  match s with
  | EmptyString => []
  | String c s' =>
      match characters s' with
      | [] => [String c EmptyString]
      | ch :: rest =>
          if starts_with_continuation ch then String c ch :: rest
          else String c EmptyString :: ch :: rest
      end
  end.

Definition join (chars : list string) : string :=
  fold_right String.append EmptyString chars.

(** The UTF-8 encoding of a code point. *)
Definition utf8_encode (cp : N) : string :=
  let byte (n : N) := String (ascii_of_N n) EmptyString in
  (if cp <? 128 then byte cp
   else if cp <? 2048 then
     byte (192 + cp / 64) ++ byte (128 + cp mod 64)
   else if cp <? 65536 then
     byte (224 + cp / 4096) ++ byte (128 + (cp / 64) mod 64)
     ++ byte (128 + cp mod 64)
   else
     byte (240 + cp / 262144) ++ byte (128 + (cp / 4096) mod 64)
     ++ byte (128 + (cp / 64) mod 64) ++ byte (128 + cp mod 64))%N.

(** The code points that [str.strip()] removes: tab to carriage return,
    the separators U+001C to U+001F, the space, U+0085, U+00A0, U+1680,
    U+2000 to U+200A, U+2028, U+2029, U+202F, U+205F and U+3000. *)
Definition whitespace_code_points : list N :=
  (app [9; 10; 11; 12; 13; 28; 29; 30; 31; 32; 133; 160; 5760]
     (app (map (fun i => 8192 + N.of_nat i) (seq 0 11)%nat)
        [8232; 8233; 8239; 8287; 12288]))%N.

Definition is_space (ch : string) : bool :=
  existsb (String.eqb ch) (map utf8_encode whitespace_code_points).

Fixpoint drop_while {A} (p : A -> bool) (l : list A) : list A :=
  match l with
  | [] => []
  | x :: l' => if p x then drop_while p l' else l
  end.

Definition lstrip (chars : list string) : list string :=
  drop_while is_space chars.

Definition rstrip (chars : list string) : list string :=
  rev (drop_while is_space (rev chars)).

(** [s.strip()] *)
Definition strip (s : string) : string :=
  join (rstrip (lstrip (characters s))).

(** ** Exceptions and fallible results *)

(** The two handlers of [fetch_weather_data] tell [requests.RequestException]
    from every other [Exception]; all other handlers catch [Exception]. *)
Inductive exn : Type :=
| RequestException (msg : string)
| OtherException (msg : string).

(** [str(e)] *)
Definition exn_str (e : exn) : string :=
  match e with
  | RequestException m => m
  | OtherException m => m
  end.

Inductive result (A : Type) : Type :=
| Ok (a : A)
| Raise (e : exn).
Arguments Ok {A} a.
Arguments Raise {A} e.

Definition rbind {A B} (r : result A) (k : A -> result B) : result B :=
  match r with
  | Ok a => k a
  | Raise e => Raise e
  end.

Declare Scope result_scope.
Delimit Scope result_scope with result.
Notation "x <- c ;; k" := (rbind c (fun x => k))
  (at level 61, c at next level, right associativity) : result_scope.

Fixpoint mapR {A B} (f : A -> result B) (l : list A) : result (list B) :=
  match l with
  | [] => Ok []
  | x :: l' =>
      (y <- f x ;;
       ys <- mapR f l' ;;
       Ok (y :: ys))%result
  end.

(** ** Dictionaries with string keys

    A [dict] is kept as the list of its items; [lookup] takes the first
    binding of a key. *)

Fixpoint lookup {A} (k : string) (l : list (string * A)) : option A :=
  match l with
  | [] => None
  | (k', v) :: rest => if String.eqb k k' then Some v else lookup k rest
  end.

(** ** Parsed JSON: the values of [response.json()] *)

Inductive number : Type :=
| NInt (z : Z)
| NFloat (f : spec_float).

(** [JNull] is Python's [None]; [JObj] is a [dict]. *)
#[local] Unset Elimination Schemes.
Inductive json : Type :=
| JNull
| JBool (b : bool)
| JNum (n : number)
| JStr (s : string)
| JArr (items : list json)
| JObj (fields : list (string * json)).
#[local] Set Elimination Schemes.


(** [type(v).__name__] *)
Definition type_name (v : json) : string :=
  match v with
  | JNull => "NoneType"
  | JBool _ => "bool"
  | JNum (NInt _) => "int"
  | JNum (NFloat _) => "float"
  | JStr _ => "str"
  | JArr _ => "list"
  | JObj _ => "dict"
  end.

(** [v.get(k, default)]: only a [dict] has the method; on anything else the
    attribute lookup raises [AttributeError]. *)
Definition get (v : json) (k : string) (default : json) : result json :=
  match v with
  | JObj fields =>
      match lookup k fields with
      | Some x => Ok x
      | None => Ok default
      end
  | _ => Raise (OtherException
                  ("'" ++ type_name v ++ "' object has no attribute 'get'"))
  end.

(** The characters of a text, each as a text of its own. *)
Definition chars (s : string) : list json := map JStr (characters s).

(** [for x in v]: a list yields its items, a dict its keys, a string its
    characters; [None], booleans and numbers raise [TypeError]. *)
Definition py_iter (v : json) : result (list json) :=
  match v with
  | JArr items => Ok items
  | JObj fields => Ok (map (fun kv => JStr (fst kv)) fields)
  | JStr s => Ok (chars s)
  | _ => Raise (OtherException ("'" ++ type_name v ++ "' object is not iterable"))
  end.

(** [bool(v)] *)
Definition truthy (v : json) : bool :=
  match v with
  | JNull => false
  | JBool b => b
  | JNum (NInt z) => negb (Z.eqb z 0)
  | JNum (NFloat (S754_zero _)) => false
  | JNum (NFloat _) => true
  | JStr s => str_truthy s
  | JArr items => match items with [] => false | _ => true end
  | JObj fields => match fields with [] => false | _ => true end
  end.

(** [str(v)] as an f-string renders it.  Strings, [None] and booleans are
    written out; numbers, lists and dicts go through [py_repr], Python's
    [repr], which is a parameter of the development. *)
Definition py_str (py_repr : json -> string) (v : json) : string :=
  match v with
  | JStr s => s
  | JNull => "None"
  | JBool true => "True"
  | JBool false => "False"
  | _ => py_repr v
  end.

(** ** Messages, the chat model handle and the world *)

Inductive message : Type :=
| SystemMessage (content : string)
| HumanMessage (content : string)
| AIMessage (content : string).

(** The [ChatGroq] object built by [get_llm]. *)
Record ChatGroq : Type := {
  api_key : string;
  model : string;
  temperature : spec_float;
  max_tokens : Z
}.

(** One request to an external service. *)
Inductive call : Type :=
| LLMCall (llm : ChatGroq) (messages : list message)
| HttpCall (url : string) (params : list (string * json)).

Definition is_llm_call (c : call) : bool :=
  match c with LLMCall _ _ => true | HttpCall _ _ => false end.

Definition is_http_call (c : call) : bool :=
  match c with HttpCall _ _ => true | LLMCall _ _ => false end.

(** The module-level variables and the log of external requests. *)
Record world : Type := {
  GROQ_API_KEY : string;
  WEATHER_API_KEY : string;
  calls : list call
}.

Definition log (c : call) (w : world) : world :=
  {| GROQ_API_KEY := GROQ_API_KEY w;
     WEATHER_API_KEY := WEATHER_API_KEY w;
     calls := (calls w ++ [c])%list |}.

(** Computations that read and update the world. *)
Definition M (A : Type) : Type := world -> A * world.

Definition ret {A} (a : A) : M A := fun w => (a, w).

Definition bind {A B} (m : M A) (k : A -> M B) : M B :=
  fun w => let (a, w') := m w in k a w'.

Declare Scope world_scope.
Delimit Scope world_scope with world.
Notation "x <- c ;; k" := (bind c (fun x => k))
  (at level 61, c at next level, right associativity) : world_scope.

(** ** The request state *)

(** [AgentState] is a total [TypedDict]: every key is present, so the
    defaults of [state.get(key, default)] are never taken.  [messages] is
    only ever appended to and no node reads it. *)
Record AgentState : Type := {
  messages : list message;
  user_query : string;
  location : string;
  weather_data : json;
  recommendations : string;
  error : string
}.

Definition set_location (v : string) (st : AgentState) : AgentState :=
  {| messages := messages st; user_query := user_query st; location := v;
     weather_data := weather_data st; recommendations := recommendations st;
     error := error st |}.

Definition set_weather_data (v : json) (st : AgentState) : AgentState :=
  {| messages := messages st; user_query := user_query st;
     location := location st; weather_data := v;
     recommendations := recommendations st; error := error st |}.

Definition set_recommendations (v : string) (st : AgentState) : AgentState :=
  {| messages := messages st; user_query := user_query st;
     location := location st; weather_data := weather_data st;
     recommendations := v; error := error st |}.

Definition set_error (v : string) (st : AgentState) : AgentState :=
  {| messages := messages st; user_query := user_query st;
     location := location st; weather_data := weather_data st;
     recommendations := recommendations st; error := v |}.

(** [state["messages"].append(m)] *)
Definition append_message (m : message) (st : AgentState) : AgentState :=
  {| messages := (messages st ++ [m])%list; user_query := user_query st;
     location := location st; weather_data := weather_data st;
     recommendations := recommendations st; error := error st |}.

(** ** Normalisation of the provider's response
    (the body of [fetch_weather_data] after [data = response.json()]) *)

Section Normalisation.

Variable py_repr : json -> string.

Local Open Scope result_scope.

(** The [current] entry of the summary. *)
Definition current_summary (current : json) : result json :=
  temp_c <- get current "temp_c" JNull ;;
  temp_f <- get current "temp_f" JNull ;;
  condition <- get current "condition" (JObj []) ;;
  text <- get condition "text" JNull ;;
  wind_kph <- get current "wind_kph" JNull ;;
  wind_mph <- get current "wind_mph" JNull ;;
  humidity <- get current "humidity" JNull ;;
  feelslike_c <- get current "feelslike_c" JNull ;;
  feelslike_f <- get current "feelslike_f" JNull ;;
  uv <- get current "uv" JNull ;;
  vis_km <- get current "vis_km" JNull ;;
  Ok (JObj [("temp_c", temp_c); ("temp_f", temp_f); ("condition", text);
            ("wind_kph", wind_kph); ("wind_mph", wind_mph);
            ("humidity", humidity); ("feelslike_c", feelslike_c);
            ("feelslike_f", feelslike_f); ("uv", uv);
            ("visibility_km", vis_km)]).

(** The record appended for one element of [forecast_days]. *)
Definition forecast_record (day : json) : result json :=
  day_data <- get day "day" (JObj []) ;;
  date <- get day "date" JNull ;;
  maxtemp_c <- get day_data "maxtemp_c" JNull ;;
  mintemp_c <- get day_data "mintemp_c" JNull ;;
  maxtemp_f <- get day_data "maxtemp_f" JNull ;;
  mintemp_f <- get day_data "mintemp_f" JNull ;;
  condition <- get day_data "condition" (JObj []) ;;
  text <- get condition "text" JNull ;;
  rain <- get day_data "daily_chance_of_rain" JNull ;;
  snow <- get day_data "daily_chance_of_snow" JNull ;;
  maxwind_kph <- get day_data "maxwind_kph" JNull ;;
  avghumidity <- get day_data "avghumidity" JNull ;;
  uv <- get day_data "uv" JNull ;;
  Ok (JObj [("date", date); ("max_temp_c", maxtemp_c);
            ("min_temp_c", mintemp_c); ("max_temp_f", maxtemp_f);
            ("min_temp_f", mintemp_f); ("condition", text);
            ("rain_chance", rain); ("snow_chance", snow);
            ("max_wind_kph", maxwind_kph); ("avg_humidity", avghumidity);
            ("uv", uv)]).

(** The record built for one element of [alerts]. *)
Definition alert_record (alert : json) : result json :=
  headline <- get alert "headline" JNull ;;
  severity <- get alert "severity" JNull ;;
  event <- get alert "event" JNull ;;
  Ok (JObj [("headline", headline); ("severity", severity);
            ("event", event)]).

(** [weather_summary] as returned on the success path, in the order in
    which the source evaluates it. *)
Definition normalise (data : json) : result json :=
  current <- get data "current" (JObj []) ;;
  forecast <- get data "forecast" (JObj []) ;;
  forecast_days <- get forecast "forecastday" (JArr []) ;;
  location_info <- get data "location" (JObj []) ;;
  name <- get location_info "name" JNull ;;
  country <- get location_info "country" JNull ;;
  localtime <- get location_info "localtime" JNull ;;
  cur <- current_summary current ;;
  days <- py_iter forecast_days ;;
  forecast_list <- mapR forecast_record days ;;
  alerts_info <- get data "alerts" (JObj []) ;;
  alerts <- get alerts_info "alert" (JArr []) ;;
  let summary :=
    [("location", JStr (py_str py_repr name ++ ", " ++ py_str py_repr country));
     ("local_time", localtime);
     ("current", cur);
     ("forecast", JArr forecast_list)] in
  if truthy alerts then
    items <- py_iter alerts ;;
    alert_list <- mapR alert_record items ;;
    Ok (JObj (summary ++ [("alerts", JArr alert_list)])%list)
  else
    Ok (JObj summary).

End Normalisation.

(** ** The weather client *)

(** What [fetch_weather_data] returns: the dict [{"error": msg}] or the
  weather summary.  The summary never has an ["error"] key (see
  [normalise_no_error_key]), so the test ["error" in weather_data] of
  [fetch_weather_node] tells the two apart exactly. *)
Inductive weather_result : Type :=
| WeatherError (msg : string)
| WeatherSummary (summary : json).

Definition forecast_url : string := "http://api.weatherapi.com/v1/forecast.json".

Definition forecast_params (key location : string) : list (string * json) :=
  [("key", JStr key); ("q", JStr location); ("days", JNum (NInt 3));
   ("aqi", JStr "no"); ("alerts", JStr "yes")].

(** The system prompt of [extract_location_node]. *)
Definition location_system_prompt : string :=
  "You are a location extraction expert. Extract the primary geographic location from the user's query." ++ nl ++
  "        " ++ nl ++
  "Rules:" ++ nl ++
  "- Return ONLY the location name (city, region, or country)" ++ nl ++
  "- If multiple locations are mentioned, return the primary one" ++ nl ++
  "- If no location is mentioned, return " ++ dq ++ "unknown" ++ dq ++ nl ++
  "- Do not include any explanation, just the location name" ++ nl ++
  nl ++
  "Examples:" ++ nl ++
  "User: " ++ dq ++ "What should I wear in Paris tomorrow?" ++ dq ++ nl ++
  "Response: Paris" ++ nl ++
  nl ++
  "User: " ++ dq ++ "Is it safe to travel to Tokyo next week?" ++ dq ++ nl ++
  "Response: Tokyo" ++ nl ++
  nl ++
  "User: " ++ dq ++ "What's the weather like?" ++ dq ++ nl ++
  "Response: unknown".

(** The system prompt of [analyze_and_recommend_node]. *)
Definition recommend_system_prompt : string :=
  "You are a weather-based recommendation expert. Analyze the provided weather data and user query to generate practical, actionable recommendations." ++ nl ++
  nl ++
  "Your recommendations should cover:" ++ nl ++
  "1. **Clothing Suggestions**: Based on temperature, wind, rain, and UV index" ++ nl ++
  "2. **Travel Safety**: Assess any weather-related risks" ++ nl ++
  "3. **Activity Planning**: Suggest best times and precautions" ++ nl ++
  "4. **Health Considerations**: UV protection, hydration, etc." ++ nl ++
  nl ++
  "Guidelines:" ++ nl ++
  "- Be specific and practical" ++ nl ++
  "- Consider current conditions AND forecast" ++ nl ++
  "- Mention any weather alerts if present" ++ nl ++
  "- Use natural, conversational language" ++ nl ++
  "- Focus on what matters most to the user's intent" ++ nl ++
  "- Include temperature in both Celsius and Fahrenheit when relevant" ++ nl ++
  nl ++
  "Format your response in clear sections with appropriate headers.".

Section Agent.

(** Python's [repr] and [json.dumps(_, indent=2)]. *)
Variable py_repr : json -> string.
Variable json_dumps : json -> string.

(** [llm.invoke(messages).content], or the exception it raises. *)
Variable llm_invoke : ChatGroq -> list message -> result string.

(** [requests.get(url, params, timeout=10)] followed by
    [raise_for_status()] and [json()]: the parsed body, or the exception
    one of the three raises. *)
Variable requests_get : string -> list (string * json) -> result json.

Definition fetch_weather_data (location : string) : M weather_result :=
  fun w =>
    if negb (str_truthy (WEATHER_API_KEY w)) then
      (WeatherError "WEATHER_API_KEY not set", w)
    else
      let params := forecast_params (WEATHER_API_KEY w) location in
      let w' := log (HttpCall forecast_url params) w in
      match (data <- requests_get forecast_url params ;;
             normalise py_repr data)%result with
      | Ok weather_summary => (WeatherSummary weather_summary, w')
      | Raise (RequestException m) =>
          (WeatherError ("Weather API error: " ++ m), w')
      | Raise (OtherException m) =>
          (WeatherError ("Unexpected error: " ++ m), w')
      end.

(** ** The chat model *)

Definition get_llm (w : world) : result ChatGroq :=
  if negb (str_truthy (GROQ_API_KEY w)) then
    Raise (OtherException
             "GROQ_API_KEY not set. Please set it as an environment variable.")
  else
    Ok {| api_key := GROQ_API_KEY w;
          model := "llama-3.3-70b-versatile";
          temperature := S754_finite false 5404319552844595 (-54);
          max_tokens := 1024 |}.

(** [llm.invoke(messages)], logged. *)
Definition invoke_llm (llm : ChatGroq) (msgs : list message) : M (result string) :=
  fun w => (llm_invoke llm msgs, log (LLMCall llm msgs) w).

(** ** The four nodes *)

Definition extract_location_node (state : AgentState) : M AgentState :=
  fun w =>
    match get_llm w with
    | Raise e =>
        (set_error ("Location extraction error: " ++ exn_str e) state, w)
    | Ok llm =>
        let msgs := [SystemMessage location_system_prompt;
                     HumanMessage (user_query state)] in
        let (response, w') := invoke_llm llm msgs w in
        match response with
        | Raise e =>
            (set_error ("Location extraction error: " ++ exn_str e) state, w')
        | Ok content =>
            let location := strip content in
            (append_message (AIMessage ("Extracted location: " ++ location))
               (set_location location state), w')
        end
    end.

(** The keys of the state are all present, so [state.get("location",
    "unknown")], [state.get("weather_data", {})] and [state.get("error",
    "Unknown error occurred")] below read the stored value. *)
Definition no_location_message : string :=
  "No location specified. Please include a city or location in your query.".

Definition fetch_weather_node (state : AgentState) : M AgentState :=
  fun w =>
    let loc := location state in
    if String.eqb loc "unknown" || negb (str_truthy loc) then
      (set_error no_location_message state, w)
    else
      let (weather, w') := fetch_weather_data loc w in
      match weather with
      | WeatherError msg => (set_error msg state, w')
      | WeatherSummary summary =>
          let state' := set_weather_data summary state in
          match get summary "location" JNull with
          | Ok label =>
              (append_message
                 (AIMessage ("Fetched weather data for " ++ py_str py_repr label))
                 state', w')
          | Raise e =>
              (set_error ("Weather fetch error: " ++ exn_str e) state', w')
          end
      end.

Definition recommend_human_message (user_query weather_context : string) : string :=
  "User Query: " ++ user_query ++ nl ++
  nl ++
  "Weather Data:" ++ nl ++
  weather_context ++ nl ++
  nl ++
  "Provide comprehensive recommendations based on this information.".

Definition analyze_and_recommend_node (state : AgentState) : M AgentState :=
  fun w =>
    match get_llm w with
    | Raise e =>
        (set_error ("Recommendation generation error: " ++ exn_str e) state, w)
    | Ok llm =>
        if negb (truthy (weather_data state)) then
          (set_error "No weather data available" state, w)
        else
          let weather_context := json_dumps (weather_data state) in
          let msgs := [SystemMessage recommend_system_prompt;
                       HumanMessage (recommend_human_message (user_query state)
                                       weather_context)] in
          let (response, w') := invoke_llm llm msgs w in
          match response with
          | Raise e =>
              (set_error ("Recommendation generation error: " ++ exn_str e)
                 state, w')
          | Ok content =>
              (append_message (AIMessage "Generated recommendations")
                 (set_recommendations content state), w')
          end
    end.

(** The text the error node writes for an error message. *)
Definition error_text (error_msg : string) : string :=
  "⚠️ **Error**: " ++ error_msg ++ nl ++ nl ++
  "Please try again with a different query or check your API keys.".

Definition error_handler_node (state : AgentState) : M AgentState :=
  fun w => (set_recommendations (error_text (error state)) state, w).

(** ** Routing *)

Definition should_continue (state : AgentState) : string :=
  if str_truthy (error state) then "error" else "fetch_weather".

Definition after_weather_fetch (state : AgentState) : string :=
  if str_truthy (error state) then "error" else "analyze".

(** ** The graph *)

Definition END : string := "__end__".

(** A [StateGraph]: named nodes, an entry point, conditional edges (a
    routing function and the map from its labels to node names) and plain
    edges. *)
Record StateGraph : Type := {
  nodes : list (string * (AgentState -> M AgentState));
  entry_point : string;
  conditional_edges :
    list (string * ((AgentState -> string) * list (string * string)));
  edges : list (string * string)
}.

(** The node that follows [name] once it has produced [state]. *)
Definition next_node (g : StateGraph) (name : string) (state : AgentState)
  : result string :=
  match lookup name (conditional_edges g) with
  | Some (route, path_map) =>
      match lookup (route state) path_map with
      | Some target => Ok target
      | None => Raise (OtherException ("Unknown route: " ++ route state))
      end
  | None =>
      match lookup name (edges g) with
      | Some target => Ok target
      | None => Raise (OtherException ("No edge from node: " ++ name))
      end
  end.

(** The default [recursion_limit] of a compiled graph. *)
Definition recursion_limit : nat := 25.

(** Runs the node [name] and its successors, at most [steps] nodes; the
    result carries the names of the nodes run, in order.  A missing node,
    an unmapped route and an exhausted step budget are the executor's own
    failures; [invoke_agent_ok] shows that the agent's graph meets none of
    them. *)
Fixpoint run (g : StateGraph) (steps : nat) (name : string)
  (state : AgentState) (visited : list string)
  : M (result (AgentState * list string)) :=
  fun w =>
    match steps with
    | O => (Raise (OtherException "Recursion limit reached"), w)
    | S steps' =>
        match lookup name (nodes g) with
        | None => (Raise (OtherException ("Unknown node: " ++ name)), w)
        | Some node =>
            let (state', w') := node state w in
            let visited' := (visited ++ [name])%list in
            match next_node g name state' with
            | Raise e => (Raise e, w')
            | Ok target =>
                if String.eqb target END then (Ok (state', visited'), w')
                else run g steps' target state' visited' w'
            end
        end
    end.

(** [agent.invoke(initial_state)] *)
Definition invoke (g : StateGraph) (state : AgentState)
  : M (result (AgentState * list string)) :=
  run g recursion_limit (entry_point g) state [].

Definition create_agent_graph : StateGraph :=
  {| nodes := [("extract_location", extract_location_node);
               ("fetch_weather", fetch_weather_node);
               ("analyze", analyze_and_recommend_node);
               ("error", error_handler_node)];
     entry_point := "extract_location";
     conditional_edges :=
       [("extract_location",
         (should_continue,
          [("fetch_weather", "fetch_weather"); ("error", "error")]));
        ("fetch_weather",
         (after_weather_fetch,
          [("analyze", "analyze"); ("error", "error")]))];
     edges := [("analyze", END); ("error", END)] |}.

(** ** The entry point *)

Definition initial_state (user_query : string) : AgentState :=
  {| messages := [];
     user_query := user_query;
     location := EmptyString;
     weather_data := JObj [];
     recommendations := EmptyString;
     error := EmptyString |}.

Definition set_keys (groq_key weather_key : string) (w : world) : world :=
  {| GROQ_API_KEY := str_or groq_key (GROQ_API_KEY w);
     WEATHER_API_KEY := str_or weather_key (WEATHER_API_KEY w);
     calls := calls w |}.

(** The returned state has a [recommendations] key, so the default of
    [result.get("recommendations", ...)] is not taken. *)
Definition process_query (user_query groq_key weather_key : string) : M string :=
  fun w0 =>
    let w := set_keys groq_key weather_key w0 in
    if negb (str_truthy (GROQ_API_KEY w)) then
      ("❌ Please provide your Groq API key", w)
    else if negb (str_truthy (WEATHER_API_KEY w)) then
      ("❌ Please provide your WeatherAPI key", w)
    else if negb (str_truthy (strip user_query)) then
      ("❌ Please enter a query", w)
    else
      let agent := create_agent_graph in
      let (outcome, w') := invoke agent (initial_state user_query) w in
      match outcome with
      | Ok (final, _) => (recommendations final, w')
      | Raise e =>
          ("❌ **Error**: " ++ exn_str e ++ nl ++ nl ++
           "Please check your API keys and try again.", w')
      end.

End Agent.

(** ** Vocabulary of the statements *)

(** The value found in [v] along a path of keys, [None] as soon as a key of
    the path is missing. *)
Fixpoint path_get (v : json) (path : list string) : json :=
  match path with
  | [] => v
  | k :: rest =>
      match v with
      | JObj fields =>
          match lookup k fields with
          | Some x => path_get x rest
          | None => JNull
          end
      | _ => JNull
      end
  end.

(** The items of a list; nothing for a missing one. *)
Definition elements (v : json) : list json :=
  match v with
  | JArr items => items
  | _ => []
  end.

(** [out] is a dict with exactly the keys of [table], each bound to the
    value that [src] holds at the path given for it. *)
Definition described_by (table : list (string * list string)) (src out : json)
  : Prop :=
  exists fields,
    out = JObj fields /\
    map fst fields = map fst table /\
    Forall (fun entry => lookup (fst entry) fields
                         = Some (path_get src (snd entry))) table.

(** Summary key and provider path, for the [current] block, for a forecast
    day and for an alert. *)
Definition current_table : list (string * list string) :=
  [("temp_c", ["temp_c"]); ("temp_f", ["temp_f"]);
   ("condition", ["condition"; "text"]);
   ("wind_kph", ["wind_kph"]); ("wind_mph", ["wind_mph"]);
   ("humidity", ["humidity"]); ("feelslike_c", ["feelslike_c"]);
   ("feelslike_f", ["feelslike_f"]); ("uv", ["uv"]);
   ("visibility_km", ["vis_km"])].

Definition day_table : list (string * list string) :=
  [("date", ["date"]); ("max_temp_c", ["day"; "maxtemp_c"]);
   ("min_temp_c", ["day"; "mintemp_c"]); ("max_temp_f", ["day"; "maxtemp_f"]);
   ("min_temp_f", ["day"; "mintemp_f"]);
   ("condition", ["day"; "condition"; "text"]);
   ("rain_chance", ["day"; "daily_chance_of_rain"]);
   ("snow_chance", ["day"; "daily_chance_of_snow"]);
   ("max_wind_kph", ["day"; "maxwind_kph"]);
   ("avg_humidity", ["day"; "avghumidity"]); ("uv", ["day"; "uv"])].

Definition alert_table : list (string * list string) :=
  [("headline", ["headline"]); ("severity", ["severity"]);
   ("event", ["event"])].

Definition is_obj (v : json) : bool :=
  match v with JObj _ => true | _ => false end.

Definition is_list_of (p : json -> bool) (v : json) : bool :=
  match v with JArr items => forallb p items | _ => false end.

(** [v] is a dict in which key [k] is missing or bound to a value that
    satisfies [p]. *)
Definition absent_or (p : json -> bool) (k : string) (v : json) : bool :=
  match v with
  | JObj fields =>
      match lookup k fields with
      | None => true
      | Some x => p x
      end
  | _ => false
  end.

(** A provider response in which any key may be missing, at any level: the
    nested dicts and lists that are present have the provider's shape, and
    nothing is asked of the leaves. *)
Definition partial_response (data : json) : bool :=
  absent_or (absent_or is_obj "condition") "current" data
  && absent_or (absent_or (is_list_of
                  (absent_or (absent_or is_obj "condition") "day"))
                  "forecastday") "forecast" data
  && absent_or is_obj "location" data
  && absent_or (absent_or (is_list_of is_obj) "alert") "alerts" data.

(** The world [w] after the requests [new] have been made. *)
Definition extend (w : world) (new : list call) : world :=
  {| GROQ_API_KEY := GROQ_API_KEY w;
     WEATHER_API_KEY := WEATHER_API_KEY w;
     calls := (calls w ++ new)%list |}.

(** Two worlds that hold the same credentials. *)
Definition same_keys (w1 w2 : world) : Prop :=
  GROQ_API_KEY w1 = GROQ_API_KEY w2 /\
  WEATHER_API_KEY w1 = WEATHER_API_KEY w2.

(** A request made with the given credentials. *)
Definition uses_keys (groq_key weather_key : string) (c : call) : Prop :=
  match c with
  | LLMCall llm _ => api_key llm = groq_key
  | HttpCall _ params => lookup "key" params = Some (JStr weather_key)
  end.

(** Each node leaves the credentials alone and only adds requests made with
    them to the log. *)
Definition well_behaved (node : AgentState -> M AgentState) : Prop :=
  forall state w,
    exists new,
      snd (node state w) = extend w new /\
      Forall (uses_keys (GROQ_API_KEY w) (WEATHER_API_KEY w)) new.

(** The state a node returns depends on the world through the credentials
    only. *)
Definition key_determined (node : AgentState -> M AgentState) : Prop :=
  forall state w1 w2,
    same_keys w1 w2 ->
    fst (node state w1) = fst (node state w2).


(** ** Concrete clients and inputs for the examples *)

Definition repr_stub (v : json) : string := "<repr>".
Definition dumps_stub (v : json) : string := "<json>".

Definition is_location_request (msgs : list message) : bool :=
  match msgs with
  | SystemMessage p :: _ => String.eqb p location_system_prompt
  | _ => false
  end.

(** Extracts "Paris", then answers the recommendation request. *)
Definition llm_paris (llm : ChatGroq) (msgs : list message) : result string :=
  if is_location_request msgs then Ok " Paris "
  else Ok "Take an umbrella.".

(** Extracts "Paris", then fails on the recommendation request. *)
Definition llm_paris_then_fails (llm : ChatGroq) (msgs : list message)
  : result string :=
  if is_location_request msgs then Ok "Paris"
  else Raise (OtherException "rate limit exceeded").

(** Finds no location. *)
Definition llm_unknown (llm : ChatGroq) (msgs : list message) : result string :=
  Ok "unknown".

(** Every request fails. *)
Definition llm_down (llm : ChatGroq) (msgs : list message) : result string :=
  Raise (OtherException "Connection error.").

Definition paris_response : json :=
  JObj [("location", JObj [("name", JStr "Paris"); ("country", JStr "France")]);
        ("current",
         JObj [("temp_c", JNum (NInt 15));
               ("condition", JObj [("text", JStr "Light rain")])]);
        ("forecast",
         JObj [("forecastday",
                JArr [JObj [("date", JStr "2024-05-01");
                            ("day", JObj [("maxtemp_c", JNum (NInt 17))])]])]);
        ("alerts", JObj [("alert", JArr [JObj [("event", JStr "Flood")]])])].

Definition http_paris (url : string) (params : list (string * json))
  : result json :=
  Ok paris_response.

Definition http_timeout (url : string) (params : list (string * json))
  : result json :=
  Raise (RequestException "Read timed out.").

Definition no_keys : world :=
  {| GROQ_API_KEY := EmptyString; WEATHER_API_KEY := EmptyString; calls := [] |}.

Definition with_keys : world :=
  {| GROQ_API_KEY := "gsk_test"; WEATHER_API_KEY := "wk_test"; calls := [] |}.

Definition paris_query : string := "What should I wear in Paris tomorrow?".

(** A state in which extraction found no location. *)
Definition unknown_state : AgentState :=
  set_location "unknown" (initial_state "What's the weather like?").

(** A response with most keys missing: no [location], no [alerts], a
    forecast day without its [day] block. *)
Definition sparse_response : json :=
  JObj [("current", JObj [("temp_c", JNum (NInt 15))]);
        ("forecast",
         JObj [("forecastday", JArr [JObj [("date", JStr "2024-05-01")]])])].


(** ** Vocabulary of the further statements *)

Definition bytes (l : list nat) : string :=
  fold_right (fun n s => String (ascii_of_nat n) s) EmptyString l.

Definition quote_mark : string := bytes [34].

(** The characters that Python counts as whitespace, as UTF-8 bytes:
    U+0009 to U+000D, U+001C to U+0020, U+0085, U+00A0, U+1680, U+2000 to
    U+200A, U+2028, U+2029, U+202F, U+205F, U+3000. *)
Definition whitespace : list string :=
  map bytes
    [[9]; [10]; [11]; [12]; [13]; [28]; [29]; [30]; [31]; [32];
     [194; 133]; [194; 160]; [225; 154; 128];
     [226; 128; 128]; [226; 128; 129]; [226; 128; 130]; [226; 128; 131];
     [226; 128; 132]; [226; 128; 133]; [226; 128; 134]; [226; 128; 135];
     [226; 128; 136]; [226; 128; 137]; [226; 128; 138];
     [226; 128; 168]; [226; 128; 169]; [226; 128; 175];
     [226; 129; 159]; [227; 128; 128]].

Definition is_whitespace (ch : string) : bool :=
  existsb (String.eqb ch) whitespace.

Fixpoint all_continuation (s : string) : bool :=
  match s with
  | EmptyString => true
  | String c s' => is_continuation c && all_continuation s'
  end.

(** One character: a byte that is not a continuation byte, followed by
    continuation bytes only. *)
Definition is_char (ch : string) : bool :=
  match ch with
  | EmptyString => false
  | String c t => negb (is_continuation c) && all_continuation t
  end.

(** The [ChatGroq] object that [get_llm] builds for a key. *)
Definition groq_client (key : string) : ChatGroq :=
  {| api_key := key;
     model := "llama-3.3-70b-versatile";
     temperature := S754_finite false 5404319552844595 (-54);
     max_tokens := 1024 |}.

(** The three sequences of nodes a run of the agent's graph can take. *)
Definition agent_paths : list (list string) :=
  [["extract_location"; "error"];
   ["extract_location"; "fetch_weather"; "error"];
   ["extract_location"; "fetch_weather"; "analyze"]].

(** The requests of a run, by kind ([true] for the chat model), in the
    orders in which a run can make them. *)
Definition request_orders : list (list bool) :=
  [[]; [true]; [true; false]; [true; false; true]].

Definition is_ai_message (m : message) : bool :=
  match m with AIMessage _ => true | _ => false end.

(** The keys of the summary, without and with alerts. *)
Definition summary_keys : list string :=
  ["location"; "local_time"; "current"; "forecast"].

(** [v] is a dict whose keys are those of [table], in order. *)
Definition has_keys (table : list (string * list string)) (v : json) : Prop :=
  exists fields, v = JObj fields /\ map fst fields = map fst table.

(** The system text of the location request. *)
Definition expected_location_prompt : string :=
  "You are a location extraction expert. Extract the primary geographic location from the user's query.
        
Rules:
- Return ONLY the location name (city, region, or country)
- If multiple locations are mentioned, return the primary one
- If no location is mentioned, return " ++ quote_mark ++ "unknown" ++ quote_mark ++ "
- Do not include any explanation, just the location name

Examples:
User: " ++ quote_mark ++ "What should I wear in Paris tomorrow?" ++ quote_mark ++ "
Response: Paris

User: " ++ quote_mark ++ "Is it safe to travel to Tokyo next week?" ++ quote_mark ++ "
Response: Tokyo

User: " ++ quote_mark ++ "What's the weather like?" ++ quote_mark ++ "
Response: unknown".

(** The system text of the recommendation request. *)
Definition expected_recommend_prompt : string :=
  "You are a weather-based recommendation expert. Analyze the provided weather data and user query to generate practical, actionable recommendations.

Your recommendations should cover:
1. **Clothing Suggestions**: Based on temperature, wind, rain, and UV index
2. **Travel Safety**: Assess any weather-related risks
3. **Activity Planning**: Suggest best times and precautions
4. **Health Considerations**: UV protection, hydration, etc.

Guidelines:
- Be specific and practical
- Consider current conditions AND forecast
- Mention any weather alerts if present
- Use natural, conversational language
- Focus on what matters most to the user's intent
- Include temperature in both Celsius and Fahrenheit when relevant

Format your response in clear sections with appropriate headers.".

(** The three requests of a successful run, written out. *)
Definition location_request (key query : string) : call :=
  LLMCall (groq_client key)
    [SystemMessage expected_location_prompt; HumanMessage query].

Definition weather_request (key loc : string) : call :=
  HttpCall "http://api.weatherapi.com/v1/forecast.json"
    [("key", JStr key); ("q", JStr loc); ("days", JNum (NInt 3));
     ("aqi", JStr "no"); ("alerts", JStr "yes")].

Definition expected_recommend_message (query weather_context : string)
  : string :=
  "User Query: " ++ query ++ "

Weather Data:
" ++ weather_context ++ "

Provide comprehensive recommendations based on this information.".

Definition recommend_request (key query weather_context : string) : call :=
  LLMCall (groq_client key)
    [SystemMessage expected_recommend_prompt;
     HumanMessage (expected_recommend_message query weather_context)].

(** A [json.dumps] that shows the label of the summary it is given. *)
Definition dumps_label (v : json) : string :=
  "<" ++ py_str repr_stub (path_get v ["location"]) ++ ">".

(** A reply with Unicode whitespace around the location (U+00A0 and a
    space before it, U+2028 after it), and a query made of a space,
    U+00A0, U+2003 and a line feed. *)
Definition llm_padded_unknown (llm : ChatGroq) (msgs : list message)
  : result string :=
  Ok (bytes [194; 160; 32] ++ "unknown" ++ bytes [226; 128; 168]).

Definition blank_pieces : list string :=
  [bytes [32]; bytes [194; 160]; bytes [226; 128; 131]; bytes [10]].

Definition blank_query : string := join blank_pieces.

(** A result that is not a raised [RequestException]. *)
Definition not_request_exception {A} (r : result A) : Prop :=
  match r with
  | Raise (RequestException _) => False
  | _ => True
  end.

Definition missing_groq_key_message : string :=
  "GROQ_API_KEY not set. Please set it as an environment variable.".

(** [location] is one the weather node sends to the provider. *)
Definition usable_location (loc : string) : bool :=
  negb (String.eqb loc "unknown") && str_truthy loc.

(** A node that leaves [user_query] alone and adds at most one message, an
    [AIMessage], at the end of [messages]. *)
Definition keeps_query_and_log (node : AgentState -> M AgentState) : Prop :=
  forall state w,
    user_query (fst (node state w)) = user_query state /\
    exists added,
      messages (fst (node state w)) = (messages state ++ added)%list /\
      length added <= 1 /\
      forallb is_ai_message added = true.

(** A node that never empties a recorded [error]. *)
Definition keeps_error (node : AgentState -> M AgentState) : Prop :=
  forall state w,
    str_truthy (error state) = true ->
    str_truthy (error (fst (node state w))) = true.

(** A state that already carries an error, as a later node would see it. *)
Definition failed_state : AgentState :=
  set_error "Location extraction error: Connection error."
    (initial_state paris_query).

(** The summary of [paris_response], its fields, and the state and world at
    the end of the successful run on [paris_query]. *)
Definition paris_summary_fields : list (string * json) :=
  Eval vm_compute in
    match normalise repr_stub paris_response with
    | Ok (JObj fields) => fields
    | _ => []
    end.

Definition paris_summary : json := JObj paris_summary_fields.

Definition paris_final : AgentState :=
  Eval vm_compute in
    match fst (invoke (create_agent_graph repr_stub dumps_stub llm_paris
                         http_paris)
                 (initial_state paris_query) with_keys) with
    | Ok (final, _) => final
    | Raise _ => initial_state paris_query
    end.

Definition paris_world : world :=
  Eval vm_compute in
    snd (invoke (create_agent_graph repr_stub dumps_stub llm_paris http_paris)
           (initial_state paris_query) with_keys).

(** A body whose [alert] value is zero, and the fields of its summary. *)
Definition zero_alert_response : json :=
  JObj [("current", JObj [("temp_c", JNum (NInt 15))]);
        ("alerts", JObj [("alert", JNum (NInt 0))])].

Definition zero_alert_fields : list (string * json) :=
  Eval vm_compute in
    match normalise repr_stub zero_alert_response with
    | Ok (JObj fields) => fields
    | _ => []
    end.
(** * Properties *)

Lemma str_truthy_false (s : string) : str_truthy s = false <-> s = EmptyString.
Proof.
  destruct s; simpl; split; intro H; try reflexivity; discriminate H.
Qed.

Lemma str_truthy_true (s : string) : str_truthy s = true <-> s <> EmptyString.
Proof.
  destruct s; simpl; split; intro H; try reflexivity; try discriminate.
  exfalso; apply H; reflexivity.
Qed.

Lemma str_or_idempotent (a b : string) : str_or a (str_or a b) = str_or a b.
Proof.
  unfold str_or. destruct (str_truthy a); reflexivity.
Qed.

Section Properties.

Variable py_repr : json -> string.
Variable json_dumps : json -> string.
Variable llm_invoke : ChatGroq -> list message -> result string.
Variable requests_get : string -> list (string * json) -> result json.

#[local] Abbreviation fetch_data := (fetch_weather_data py_repr requests_get).
#[local] Abbreviation extract_node := (extract_location_node llm_invoke).
#[local] Abbreviation fetch_node := (fetch_weather_node py_repr requests_get).
#[local] Abbreviation analyze_node := (analyze_and_recommend_node json_dumps llm_invoke).
#[local] Abbreviation graph :=
  (create_agent_graph py_repr json_dumps llm_invoke requests_get).

(** ** Routing *)

(** C5: each routing function returns ["error"] exactly when the [error]
    field is non-empty and its default successor otherwise, never a third
    label; the label depends on the [error] field only, and in the graph it
    names the node that runs next. *)
Theorem routing_predicates_total (state : AgentState) :
  (should_continue state = "error" <-> error state <> EmptyString) /\
  (should_continue state = "fetch_weather" <-> error state = EmptyString) /\
  (after_weather_fetch state = "error" <-> error state <> EmptyString) /\
  (after_weather_fetch state = "analyze" <-> error state = EmptyString) /\
  (should_continue state = "error" \/ should_continue state = "fetch_weather") /\
  (after_weather_fetch state = "error" \/ after_weather_fetch state = "analyze") /\
  (forall state', error state' = error state ->
     should_continue state' = should_continue state /\
     after_weather_fetch state' = after_weather_fetch state) /\
  next_node graph "extract_location" state = Ok (should_continue state) /\
  next_node graph "fetch_weather" state = Ok (after_weather_fetch state).
Proof.
  assert (Hnext :
    next_node graph "extract_location" state = Ok (should_continue state) /\
    next_node graph "fetch_weather" state = Ok (after_weather_fetch state)).
  { unfold next_node. simpl. unfold should_continue, after_weather_fetch.
    destruct (str_truthy (error state)); split; reflexivity. }
  assert (Hdep : forall state', error state' = error state ->
     should_continue state' = should_continue state /\
     after_weather_fetch state' = after_weather_fetch state).
  { intros state' H. unfold should_continue, after_weather_fetch.
    rewrite H. split; reflexivity. }
  destruct Hnext as [Hn1 Hn2].
  unfold should_continue, after_weather_fetch in *.
  destruct (str_truthy (error state)) eqn:E.
  - apply str_truthy_true in E.
    repeat split; intros; try discriminate; try assumption;
      try contradiction; try (left; reflexivity); try (apply Hdep; assumption).
  - apply str_truthy_false in E.
    repeat split; intros; try discriminate; try assumption;
      try contradiction; try (right; reflexivity); try (apply Hdep; assumption).
Qed.

(** ** The weather client *)

(** C9: with an empty [WEATHER_API_KEY] the weather client returns the
    record [{"error": "WEATHER_API_KEY not set"}] at once, whatever the
    location, and the world (hence the log of requests) is unchanged. *)
Theorem fetch_weather_data_without_key (loc : string) (w : world) :
  WEATHER_API_KEY w = EmptyString ->
  fetch_data loc w = (WeatherError "WEATHER_API_KEY not set", w).
Proof.
  intro H. unfold fetch_weather_data. rewrite H. reflexivity.
Qed.

(** ** How the nodes use the world *)

Lemma extend_nil (w : world) : extend w [] = w.
Proof.
  destruct w; unfold extend; simpl. rewrite app_nil_r. reflexivity.
Qed.

Lemma extend_extend (w : world) (a b : list call) :
  extend (extend w a) b = extend w (a ++ b).
Proof.
  unfold extend; simpl. rewrite app_assoc. reflexivity.
Qed.

Lemma log_extend (c : call) (w : world) : log c w = extend w [c].
Proof. reflexivity. Qed.

Lemma get_llm_key (w : world) (llm : ChatGroq) :
  get_llm w = Ok llm -> api_key llm = GROQ_API_KEY w.
Proof.
  unfold get_llm. destruct (negb (str_truthy (GROQ_API_KEY w))); intro H.
  - discriminate H.
  - injection H as <-. reflexivity.
Qed.

Lemma get_llm_same_keys (w1 w2 : world) :
  same_keys w1 w2 -> get_llm w1 = get_llm w2.
Proof.
  intros [H _]. unfold get_llm. rewrite H. reflexivity.
Qed.

Lemma fetch_weather_data_world (loc : string) (w : world) :
  exists new,
    snd (fetch_data loc w) = extend w new /\
    Forall (uses_keys (GROQ_API_KEY w) (WEATHER_API_KEY w)) new /\
    forallb is_http_call new = true.
Proof.
  unfold fetch_weather_data.
  destruct (negb (str_truthy (WEATHER_API_KEY w))).
  - exists []. simpl. rewrite extend_nil. auto.
  - exists [HttpCall forecast_url (forecast_params (WEATHER_API_KEY w) loc)].
    split; [| split; [repeat constructor | reflexivity]].
    destruct (rbind _ _) as [s | [m | m]]; reflexivity.
Qed.

Lemma fetch_weather_data_same_keys (loc : string) (w1 w2 : world) :
  same_keys w1 w2 -> fst (fetch_data loc w1) = fst (fetch_data loc w2).
Proof.
  intros [_ H]. unfold fetch_weather_data. rewrite H.
  destruct (negb (str_truthy (WEATHER_API_KEY w2))); [reflexivity |].
  destruct (rbind _ _) as [s | [m | m]]; reflexivity.
Qed.

Lemma extract_location_node_world : well_behaved extract_node.
Proof.
  intros state w. unfold extract_location_node, invoke_llm.
  destruct (get_llm w) as [llm | e] eqn:E.
  - exists [LLMCall llm [SystemMessage location_system_prompt;
                         HumanMessage (user_query state)]].
    split.
    + destruct (llm_invoke _ _); reflexivity.
    + repeat constructor. simpl. apply get_llm_key, E.
  - exists []. rewrite extend_nil. auto.
Qed.

Lemma extract_location_node_same_keys : key_determined extract_node.
Proof.
  intros state w1 w2 H. unfold extract_location_node, invoke_llm.
  rewrite (get_llm_same_keys w1 w2 H).
  destruct (get_llm w2) as [llm | e]; [| reflexivity].
  destruct (llm_invoke _ _); reflexivity.
Qed.

Lemma fetch_weather_node_world : well_behaved fetch_node.
Proof.
  intros state w. unfold fetch_weather_node.
  destruct (_ || _).
  - exists []. rewrite extend_nil. auto.
  - destruct (fetch_weather_data_world (location state) w) as (new & Hw & Hk & _).
    exists new. split; [| exact Hk].
    destruct (fetch_data (location state) w) as [[msg | summary] w'];
      simpl in Hw; [exact Hw |].
    destruct (get summary "location" JNull); exact Hw.
Qed.

Lemma fetch_weather_node_same_keys : key_determined fetch_node.
Proof.
  intros state w1 w2 H. unfold fetch_weather_node.
  destruct (_ || _); [reflexivity |].
  pose proof (fetch_weather_data_same_keys (location state) w1 w2 H) as E.
  destruct (fetch_data (location state) w1) as [r1 w1'].
  destruct (fetch_data (location state) w2) as [r2 w2'].
  simpl in E. subst r2.
  destruct r1 as [msg | summary]; [reflexivity |].
  destruct (get summary "location" JNull); reflexivity.
Qed.

Lemma analyze_and_recommend_node_world : well_behaved analyze_node.
Proof.
  intros state w. unfold analyze_and_recommend_node, invoke_llm.
  destruct (get_llm w) as [llm | e] eqn:E.
  - destruct (negb (truthy (weather_data state))).
    + exists []. rewrite extend_nil. auto.
    + eexists [LLMCall llm _]. split.
      * destruct (llm_invoke _ _); reflexivity.
      * repeat constructor. simpl. apply get_llm_key, E.
  - exists []. rewrite extend_nil. auto.
Qed.

Lemma analyze_and_recommend_node_same_keys : key_determined analyze_node.
Proof.
  intros state w1 w2 H. unfold analyze_and_recommend_node, invoke_llm.
  rewrite (get_llm_same_keys w1 w2 H).
  destruct (get_llm w2) as [llm | e]; [| reflexivity].
  destruct (negb (truthy (weather_data state))); [reflexivity |].
  destruct (llm_invoke _ _); reflexivity.
Qed.

Lemma error_handler_node_world : well_behaved error_handler_node.
Proof.
  intros state w. exists []. rewrite extend_nil. auto.
Qed.

Lemma error_handler_node_same_keys : key_determined error_handler_node.
Proof.
  intros state w1 w2 _. reflexivity.
Qed.

(** ** Runs of the graph *)

Lemma graph_nodes (name : string) (node : AgentState -> M AgentState) :
  lookup name (nodes graph) = Some node ->
  well_behaved node /\ key_determined node.
Proof.
  simpl.
  destruct (name =? "extract_location").
  { intros [= <-]. split;
      [apply extract_location_node_world | apply extract_location_node_same_keys]. }
  destruct (name =? "fetch_weather").
  { intros [= <-]. split;
      [apply fetch_weather_node_world | apply fetch_weather_node_same_keys]. }
  destruct (name =? "analyze").
  { intros [= <-]. split;
      [apply analyze_and_recommend_node_world
      | apply analyze_and_recommend_node_same_keys]. }
  destruct (name =? "error").
  { intros [= <-]. split;
      [apply error_handler_node_world | apply error_handler_node_same_keys]. }
  discriminate.
Qed.

(** A run leaves the credentials alone and only adds requests made with
    them to the log. *)
Lemma run_world (steps : nat) :
  forall name state visited w,
    exists new,
      snd (run graph steps name state visited w) = extend w new /\
      Forall (uses_keys (GROQ_API_KEY w) (WEATHER_API_KEY w)) new.
Proof.
  induction steps as [| steps IH]; intros name state visited w.
  - exists []. rewrite extend_nil. auto.
  - cbn [run].
    destruct (lookup name (nodes graph)) as [node |] eqn:En.
    2: { exists []. rewrite extend_nil. auto. }
    destruct (graph_nodes name node En) as [Hwb _].
    destruct (Hwb state w) as (new1 & Hw1 & Hk1).
    destruct (node state w) as [state' w']. simpl in Hw1. subst w'.
    destruct (next_node graph name state') as [target | e].
    2: { exists new1. auto. }
    destruct (target =? END).
    { exists new1. auto. }
    destruct (IH target state' (visited ++ [name])%list (extend w new1))
      as (new2 & Hw2 & Hk2).
    exists (new1 ++ new2)%list. split.
    + rewrite Hw2. apply extend_extend.
    + apply Forall_app. split; [exact Hk1 | exact Hk2].
Qed.

(** The outcome of a run depends on the world through the credentials
    only. *)
Lemma run_same_keys (steps : nat) :
  forall name state visited w1 w2,
    same_keys w1 w2 ->
    fst (run graph steps name state visited w1)
    = fst (run graph steps name state visited w2).
Proof.
  induction steps as [| steps IH]; intros name state visited w1 w2 H.
  - reflexivity.
  - cbn [run].
    destruct (lookup name (nodes graph)) as [node |] eqn:En; [| reflexivity].
    destruct (graph_nodes name node En) as [Hwb Hkd].
    pose proof (Hkd state w1 w2 H) as Est.
    destruct (Hwb state w1) as (new1 & Hw1 & _).
    destruct (Hwb state w2) as (new2 & Hw2 & _).
    destruct (node state w1) as [s1 w1'].
    destruct (node state w2) as [s2 w2'].
    simpl in Est, Hw1, Hw2. subst s2 w1' w2'.
    destruct (next_node graph name s1) as [target | e]; [| reflexivity].
    destruct (target =? END); [reflexivity |].
    apply IH.
    destruct H as [Hg Hk]. split; simpl; assumption.
Qed.

Ltac graph_step :=
  cbn [run lookup nodes entry_point conditional_edges edges create_agent_graph
       next_node END String.eqb Ascii.eqb Bool.eqb app].

Lemma run_error (steps : nat) (state : AgentState) (visited : list string)
  (w : world) :
  run graph (S steps) "error" state visited w
  = (Ok (set_recommendations (error_text (error state)) state,
         (visited ++ ["error"])%list), w).
Proof.
  graph_step. unfold error_handler_node. graph_step. reflexivity.
Qed.

Lemma run_analyze (steps : nat) (state : AgentState) (visited : list string)
  (w : world) :
  run graph (S steps) "analyze" state visited w
  = let (state', w') := analyze_node state w in
    (Ok (state', (visited ++ ["analyze"])%list), w').
Proof.
  graph_step. destruct (analyze_node state w) as [state' w'].
  graph_step. reflexivity.
Qed.

Lemma run_fetch_weather (steps : nat) (state : AgentState)
  (visited : list string) (w : world) :
  run graph (S steps) "fetch_weather" state visited w
  = let (state', w') := fetch_node state w in
    run graph steps (after_weather_fetch state') state'
      (visited ++ ["fetch_weather"])%list w'.
Proof.
  graph_step. destruct (fetch_node state w) as [state' w'].
  unfold after_weather_fetch.
  destruct (str_truthy (error state')); graph_step; reflexivity.
Qed.

Lemma run_extract_location (steps : nat) (state : AgentState)
  (visited : list string) (w : world) :
  run graph (S steps) "extract_location" state visited w
  = let (state', w') := extract_node state w in
    run graph steps (should_continue state') state'
      (visited ++ ["extract_location"])%list w'.
Proof.
  graph_step. destruct (extract_node state w) as [state' w'].
  unfold should_continue.
  destruct (str_truthy (error state')); graph_step; reflexivity.
Qed.

(** What [invoke] does on the agent's graph, node by node. *)
Lemma invoke_agent (state : AgentState) (w : world) :
  invoke graph state w
  = let (s1, w1) := extract_node state w in
    if str_truthy (error s1) then
      (Ok (set_recommendations (error_text (error s1)) s1,
           ["extract_location"; "error"]), w1)
    else
      let (s2, w2) := fetch_node s1 w1 in
      if str_truthy (error s2) then
        (Ok (set_recommendations (error_text (error s2)) s2,
             ["extract_location"; "fetch_weather"; "error"]), w2)
      else
        let (s3, w3) := analyze_node s2 w2 in
        (Ok (s3, ["extract_location"; "fetch_weather"; "analyze"]), w3).
Proof.
  unfold invoke, recursion_limit.
  change (entry_point graph) with "extract_location".
  rewrite run_extract_location.
  destruct (extract_node state w) as [s1 w1].
  unfold should_continue. destruct (str_truthy (error s1)).
  - rewrite run_error. reflexivity.
  - rewrite run_fetch_weather.
    destruct (fetch_node s1 w1) as [s2 w2].
    unfold after_weather_fetch. destruct (str_truthy (error s2)).
    + rewrite run_error. reflexivity.
    + rewrite run_analyze. reflexivity.
Qed.

(** ** Weather retrieval *)

(** The weather node on a state without a usable location, and the run
    from it. *)
Lemma fetch_weather_without_location_run (steps : nat) (state : AgentState)
  (visited : list string) (w : world) :
  location state = "unknown" \/ location state = EmptyString ->
  fetch_node state w = (set_error no_location_message state, w) /\
  run graph (S (S steps)) "fetch_weather" state visited w
  = (Ok (set_recommendations (error_text no_location_message)
           (set_error no_location_message state),
         (visited ++ ["fetch_weather"; "error"])%list), w).
Proof.
  intro H.
  assert (E : fetch_node state w = (set_error no_location_message state, w)).
  { unfold fetch_weather_node. destruct H as [-> | ->]; reflexivity. }
  split; [exact E |].
  rewrite run_fetch_weather, E.
  change (after_weather_fetch (set_error no_location_message state))
    with "error".
  rewrite run_error. rewrite <- app_assoc. reflexivity.
Qed.

(** C3: when [location] is ["unknown"] or empty, the weather node records
    the message "No location specified. Please include a city or location
    in your query." and returns with the world untouched (no request to the
    weather provider); the run then goes through the error node, which
    wraps that message into the text returned, and ends, still with the
    world untouched (no request of any kind). *)
Theorem fetch_weather_without_location (steps : nat) (state : AgentState)
  (visited : list string) (w : world) :
  location state = "unknown" \/ location state = EmptyString ->
  fetch_node state w
  = (set_error
       "No location specified. Please include a city or location in your query."
       state, w) /\
  run graph (S (S steps)) "fetch_weather" state visited w
  = (Ok (set_recommendations
           "⚠️ **Error**: No location specified. Please include a city or location in your query.

Please try again with a different query or check your API keys."
           (set_error
              "No location specified. Please include a city or location in your query."
              state),
         (visited ++ ["fetch_weather"; "error"])%list), w).
Proof.
  intro H.
  exact (fetch_weather_without_location_run steps state visited w H).
Qed.

(** Every failure the weather client reports carries a non-empty text. *)
Lemma fetch_weather_data_error_nonempty (loc msg : string) (w w' : world) :
  fetch_data loc w = (WeatherError msg, w') -> str_truthy msg = true.
Proof.
  unfold fetch_weather_data.
  destruct (negb (str_truthy (WEATHER_API_KEY w))).
  - intros [= <- _]. reflexivity.
  - destruct (rbind _ _) as [s | [m | m]]; intros [= <- _]; reflexivity.
Qed.

(** The run in which the weather client reports a failure. *)
Lemma weather_failure_run (query msg : string) (s1 : AgentState)
  (w w1 w2 : world) :
  extract_node (initial_state query) w = (s1, w1) ->
  str_truthy (error s1) = false ->
  String.eqb (location s1) "unknown" = false ->
  str_truthy (location s1) = true ->
  fetch_data (location s1) w1 = (WeatherError msg, w2) ->
  exists final,
    invoke graph (initial_state query) w
    = (Ok (final, ["extract_location"; "fetch_weather"; "error"]), w2) /\
    error final = msg /\
    recommendations final = error_text msg /\
    filter is_llm_call (calls w2) = filter is_llm_call (calls w1).
Proof.
  intros Hex Herr Hunk Hloc Hfetch.
  exists (set_recommendations (error_text msg) (set_error msg s1)).
  assert (Hnode : fetch_node s1 w1 = (set_error msg s1, w2)).
  { unfold fetch_weather_node. rewrite Hunk, Hloc, Hfetch. reflexivity. }
  pose proof (fetch_weather_data_error_nonempty _ _ _ _ Hfetch) as Hmsg.
  repeat split.
  - rewrite invoke_agent, Hex, Herr, Hnode.
    cbn [error set_error]. rewrite Hmsg. reflexivity.
  - destruct (fetch_weather_data_world (location s1) w1) as (new & Hw & _ & Hh).
    rewrite Hfetch in Hw. simpl in Hw. subst w2. simpl.
    rewrite filter_app.
    replace (filter is_llm_call new) with (@nil call).
    + apply app_nil_r.
    + clear - Hh. induction new as [| c new IH]; [reflexivity |].
      simpl in Hh. apply andb_prop in Hh. destruct Hh as [Hc Hn].
      destruct c; [discriminate Hc |]. simpl. apply IH, Hn.
Qed.

(** C4: when extraction has produced a usable location and the weather
    client reports a failure, that failure text becomes [error] unchanged,
    the run goes from the weather node to the error node (the
    recommendation node is not run and the chat model is not called again)
    and the text returned is the warning that quotes the failure text as it
    is, followed by the advice to try again or check the keys. *)
Theorem weather_failure_reported (query msg : string) (s1 : AgentState)
  (w w1 w2 : world) :
  extract_node (initial_state query) w = (s1, w1) ->
  str_truthy (error s1) = false ->
  String.eqb (location s1) "unknown" = false ->
  str_truthy (location s1) = true ->
  fetch_data (location s1) w1 = (WeatherError msg, w2) ->
  exists final,
    invoke graph (initial_state query) w
    = (Ok (final, ["extract_location"; "fetch_weather"; "error"]), w2) /\
    error final = msg /\
    recommendations final
    = "⚠️ **Error**: " ++ msg ++ "

Please try again with a different query or check your API keys." /\
    filter is_llm_call (calls w2) = filter is_llm_call (calls w1).
Proof.
  intros Hex Herr Hunk Hloc Hfetch.
  destruct (weather_failure_run query msg s1 w w1 w2 Hex Herr Hunk Hloc Hfetch)
    as (final & Hrun & Herror & Htext & Hcalls).
  exists final. repeat split; assumption.
Qed.

(** ** Terminal outcomes *)





(** ** The recommendation node *)

(** C7, as amended: with [GROQ_API_KEY] set, the recommendation node on
    empty [weather_data] records exactly "No weather data available" and
    leaves the world untouched (no request to the chat model); on non-empty
    [weather_data] it makes one request, and when that request succeeds the
    returned text is stored in [recommendations] as it is. *)
Theorem analyze_node_contract (state : AgentState) (w : world) :
  str_truthy (GROQ_API_KEY w) = true ->
  (truthy (weather_data state) = false ->
   analyze_node state w = (set_error "No weather data available" state, w)) /\
  (truthy (weather_data state) = true ->
   exists llm msgs,
     snd (analyze_node state w) = log (LLMCall llm msgs) w /\
     forall content,
       llm_invoke llm msgs = Ok content ->
       fst (analyze_node state w)
       = append_message (AIMessage "Generated recommendations")
           (set_recommendations content state)).
Proof.
  intro Hkey. unfold analyze_and_recommend_node, get_llm, invoke_llm.
  rewrite Hkey. cbn [negb]. split; intro Hdata; rewrite Hdata; cbn [negb].
  - reflexivity.
  - eexists _, _. split.
    + destruct (llm_invoke _ _); reflexivity.
    + intros content Hc. rewrite Hc. reflexivity.
Qed.

(** ** The entry point *)

Lemma set_keys_same_keys (g k : string) (w : world) :
  GROQ_API_KEY (set_keys g k w) = str_or g (GROQ_API_KEY w) /\
  WEATHER_API_KEY (set_keys g k w) = str_or k (WEATHER_API_KEY w) /\
  calls (set_keys g k w) = calls w.
Proof. repeat split. Qed.

(** [invoke] on the agent's graph never raises. *)
Lemma invoke_agent_ok (state : AgentState) (w : world) :
  exists final path, fst (invoke graph state w) = Ok (final, path).
Proof.
  rewrite invoke_agent.
  destruct (extract_node state w) as [s1 w1].
  destruct (str_truthy (error s1)); [eexists _, _; reflexivity |].
  destruct (fetch_node s1 w1) as [s2 w2].
  destruct (str_truthy (error s2)); [eexists _, _; reflexivity |].
  destruct (analyze_node s2 w2) as [s3 w3]. eexists _, _; reflexivity.
Qed.

(** The world after [process_query]: the credentials in force, and the
    requests of the run added to the log. *)
Lemma process_query_world (query g k : string) (w : world) :
  exists new,
    snd (process_query py_repr json_dumps llm_invoke requests_get query g k w)
    = extend (set_keys g k w) new /\
    Forall (uses_keys (GROQ_API_KEY (set_keys g k w))
                      (WEATHER_API_KEY (set_keys g k w))) new.
Proof.
  unfold process_query.
  destruct (negb (str_truthy (GROQ_API_KEY (set_keys g k w)))).
  { exists []. rewrite extend_nil. auto. }
  destruct (negb (str_truthy (WEATHER_API_KEY (set_keys g k w)))).
  { exists []. rewrite extend_nil. auto. }
  destruct (negb (str_truthy (strip query))).
  { exists []. rewrite extend_nil. auto. }
  destruct (run_world recursion_limit "extract_location"
              (initial_state query) [] (set_keys g k w)) as (new & Hw & Hk).
  exists new. split; [| exact Hk].
  change (invoke graph (initial_state query) (set_keys g k w))
    with (run graph recursion_limit "extract_location" (initial_state query)
            [] (set_keys g k w)).
  destruct (run graph recursion_limit "extract_location" (initial_state query)
              [] (set_keys g k w)) as [[[final path] | e] w'];
    simpl in Hw; exact Hw.
Qed.

(** C10: every call of [process_query] stores each provided key in the
    module-level variable, an empty key leaving the variable as it was; the
    requests of the run are made with the stored values; and a later call
    with empty keys finds and keeps them. *)
Theorem process_query_sets_keys (query g k : string) (w : world) :
  let w' :=
    snd (process_query py_repr json_dumps llm_invoke requests_get query g k w) in
  GROQ_API_KEY w' = (if str_truthy g then g else GROQ_API_KEY w) /\
  WEATHER_API_KEY w' = (if str_truthy k then k else WEATHER_API_KEY w) /\
  (exists new,
     calls w' = (calls w ++ new)%list /\
     Forall (uses_keys (GROQ_API_KEY w') (WEATHER_API_KEY w')) new) /\
  (forall query',
     same_keys
       (snd (process_query py_repr json_dumps llm_invoke requests_get
               query' EmptyString EmptyString w')) w').
Proof.
  intro w'.
  destruct (process_query_world query g k w) as (new & Hw & Hk).
  fold w' in Hw.
  assert (Hg : GROQ_API_KEY w' = str_or g (GROQ_API_KEY w))
    by (rewrite Hw; reflexivity).
  assert (Hwk : WEATHER_API_KEY w' = str_or k (WEATHER_API_KEY w))
    by (rewrite Hw; reflexivity).
  split; [exact Hg |]. split; [exact Hwk |]. split.
  - exists new. split.
    + rewrite Hw. reflexivity.
    + rewrite Hg, Hwk. exact Hk.
  - intro query'.
    destruct (process_query_world query' EmptyString EmptyString w')
      as (new' & Hw' & _).
    rewrite Hw'. split; reflexivity.
Qed.

(** The text returned depends on the world through the credentials in force
    only. *)
Lemma process_query_same_output (query g k : string) (w1 w2 : world) :
  same_keys (set_keys g k w1) (set_keys g k w2) ->
  fst (process_query py_repr json_dumps llm_invoke requests_get query g k w1)
  = fst (process_query py_repr json_dumps llm_invoke requests_get query g k w2).
Proof.
  intro H. unfold process_query.
  pose proof H as [Hg Hk]. rewrite Hg, Hk.
  destruct (negb (str_truthy (GROQ_API_KEY (set_keys g k w2)))); [reflexivity |].
  destruct (negb (str_truthy (WEATHER_API_KEY (set_keys g k w2))));
    [reflexivity |].
  destruct (negb (str_truthy (strip query))); [reflexivity |].
  pose proof (run_same_keys recursion_limit "extract_location"
                (initial_state query) [] _ _ H) as E.
  change (invoke graph (initial_state query) (set_keys g k w1))
    with (run graph recursion_limit "extract_location" (initial_state query)
            [] (set_keys g k w1)).
  change (invoke graph (initial_state query) (set_keys g k w2))
    with (run graph recursion_limit "extract_location" (initial_state query)
            [] (set_keys g k w2)).
  destruct (run graph recursion_limit "extract_location" (initial_state query)
              [] (set_keys g k w1)) as [r1 w1'].
  destruct (run graph recursion_limit "extract_location" (initial_state query)
              [] (set_keys g k w2)) as [r2 w2'].
  simpl in E. subst r2.
  destruct r1 as [[final path] | e]; reflexivity.
Qed.

(** Two invocations in a row with the same arguments return the same text:
    the second finds the credentials the first one stored. *)
Lemma process_query_repeated (query g k : string) (w : world) :
  fst (process_query py_repr json_dumps llm_invoke requests_get query g k
         (snd (process_query py_repr json_dumps llm_invoke requests_get
                 query g k w)))
  = fst (process_query py_repr json_dumps llm_invoke requests_get query g k w).
Proof.
  apply process_query_same_output.
  destruct (process_query_world query g k w) as (new & Hw & _).
  rewrite Hw. split; simpl; apply str_or_idempotent.
Qed.

(** C8: with the two clients fixed, two invocations with the same query and
    the same credentials in force return the same text, whatever requests
    were made and whatever was stored before either of them; and they leave
    the same credentials behind. *)
Theorem process_query_deterministic (query g k : string) (w1 w2 : world) :
  same_keys (set_keys g k w1) (set_keys g k w2) ->
  fst (process_query py_repr json_dumps llm_invoke requests_get query g k w1)
  = fst (process_query py_repr json_dumps llm_invoke requests_get query g k w2)
  /\
  same_keys
    (snd (process_query py_repr json_dumps llm_invoke requests_get query g k w1))
    (snd (process_query py_repr json_dumps llm_invoke requests_get query g k w2)).
Proof.
  intro H. split.
  - apply process_query_same_output, H.
  - destruct (process_query_world query g k w1) as (new1 & Hw1 & _).
    destruct (process_query_world query g k w2) as (new2 & Hw2 & _).
    rewrite Hw1, Hw2. exact H.
Qed.

(** ** Normalisation of partial responses *)

Lemma get_obj (fields : list (string * json)) (k : string) (default : json) :
  get (JObj fields) k default
  = Ok (match lookup k fields with Some x => x | None => default end).
Proof.
  unfold get. destruct (lookup k fields); reflexivity.
Qed.

Ltac run_gets :=
  repeat (rewrite get_obj; cbn [rbind]).

Ltac described :=
  eexists; split; [reflexivity |];
  eexists; split; [reflexivity |]; split; [reflexivity |].

Lemma current_summary_spec (src : json) :
  absent_or is_obj "condition" src = true ->
  exists out,
    current_summary src = Ok out /\ described_by current_table src out.
Proof.
  destruct src as [| | | | | g]; try discriminate.
  cbn [absent_or]. intro H. unfold current_summary. run_gets.
  destruct (lookup "condition" g) as [c |] eqn:Ec.
  - destruct c as [| | | | | c]; try discriminate H. run_gets. described.
    repeat constructor; cbn; rewrite ?Ec; reflexivity.
  - run_gets. described.
    repeat constructor; cbn; rewrite ?Ec; reflexivity.
Qed.

Lemma current_summary_under (fields : list (string * json)) :
  absent_or (absent_or is_obj "condition") "current" (JObj fields) = true ->
  exists out,
    current_summary
      (match lookup "current" fields with Some x => x | None => JObj [] end)
    = Ok out /\
    described_by current_table (path_get (JObj fields) ["current"]) out.
Proof.
  cbn [absent_or path_get].
  destruct (lookup "current" fields) as [cur |].
  - apply current_summary_spec.
  - intros _. described. repeat constructor.
Qed.

Lemma forecast_record_spec (day : json) :
  absent_or (absent_or is_obj "condition") "day" day = true ->
  exists out,
    forecast_record day = Ok out /\ described_by day_table day out.
Proof.
  destruct day as [| | | | | d]; try discriminate.
  cbn [absent_or]. intro H. unfold forecast_record. run_gets.
  destruct (lookup "day" d) as [dd |] eqn:Ed.
  - destruct dd as [| | | | | dd]; try discriminate H. run_gets.
    cbn [absent_or] in H.
    destruct (lookup "condition" dd) as [c |] eqn:Ec.
    + destruct c as [| | | | | c]; try discriminate H. run_gets. described.
      repeat constructor; cbn; rewrite ?Ed; cbn; rewrite ?Ec; reflexivity.
    + run_gets. described.
      repeat constructor; cbn; rewrite ?Ed; cbn; rewrite ?Ec; reflexivity.
  - run_gets. described.
    repeat constructor; cbn; rewrite ?Ed; reflexivity.
Qed.

Lemma alert_record_spec (alert : json) :
  is_obj alert = true ->
  exists out,
    alert_record alert = Ok out /\ described_by alert_table alert out.
Proof.
  destruct alert as [| | | | | a]; try discriminate.
  intros _. unfold alert_record. run_gets. described.
  repeat constructor.
Qed.

Lemma mapR_spec (p : json -> bool) (f : json -> result json)
  (R : json -> json -> Prop) :
  (forall x, p x = true -> exists out, f x = Ok out /\ R x out) ->
  forall items,
    forallb p items = true ->
    exists outs, mapR f items = Ok outs /\ Forall2 R items outs.
Proof.
  intros Hf items. induction items as [| x items IH]; intro Hall.
  - exists []. split; [reflexivity | constructor].
  - simpl in Hall. apply andb_prop in Hall. destruct Hall as [Hx Hitems].
    destruct (Hf x Hx) as (out & Eout & Rout).
    destruct (IH Hitems) as (outs & Eouts & Routs).
    exists (out :: outs). split.
    + cbn [mapR]. rewrite Eout. cbn [rbind]. rewrite Eouts. reflexivity.
    + constructor; assumption.
Qed.

(** A list looked up two levels down: missing levels read as the empty
    list. *)
Lemma get_list_under (p : json -> bool) (fields : list (string * json))
  (k1 k2 : string) :
  absent_or (absent_or (is_list_of p) k2) k1 (JObj fields) = true ->
  exists items,
    get (match lookup k1 fields with Some x => x | None => JObj [] end)
      k2 (JArr [])
    = Ok (JArr items) /\
    items = elements (path_get (JObj fields) [k1; k2]) /\
    forallb p items = true.
Proof.
  cbn [absent_or path_get]. intro H.
  destruct (lookup k1 fields) as [sub |].
  - destruct sub as [| | | | | sub]; try discriminate H. rewrite get_obj.
    cbn [absent_or] in H.
    destruct (lookup k2 sub) as [l |].
    + destruct l as [| | | | items |]; try discriminate H.
      exists items. repeat split. exact H.
    + exists []. repeat split.
  - exists []. repeat split.
Qed.

Lemma get_location_field (fields : list (string * json)) (k : string) :
  absent_or is_obj "location" (JObj fields) = true ->
  get (match lookup "location" fields with Some x => x | None => JObj [] end)
    k JNull
  = Ok (path_get (JObj fields) ["location"; k]).
Proof.
  cbn [absent_or path_get]. intro H.
  destruct (lookup "location" fields) as [loc |].
  - destruct loc as [| | | | | loc]; try discriminate H. apply get_obj.
  - reflexivity.
Qed.

(** C6, as amended: on a provider response in which any key may be missing,
    at any level, the normalisation does not fail: it returns the summary.
    The [location] entry is the text made of the provider's name and
    country, a missing one rendered as the text "None".  Every other entry
    holds the provider's value for it unchanged (numbers included) when
    that value is present and [None] when a key on the way to it is
    missing; the forecast has one record per provider day, in order, and
    the [alerts] entry exists exactly when the provider lists at least one
    alert. *)
Theorem normalise_partial_response (data : json) :
  partial_response data = true ->
  exists summary,
    normalise py_repr data = Ok (JObj summary) /\
    lookup "location" summary
    = Some (JStr (py_str py_repr (path_get data ["location"; "name"]) ++ ", "
                  ++ py_str py_repr (path_get data ["location"; "country"]))) /\
    lookup "local_time" summary
    = Some (path_get data ["location"; "localtime"]) /\
    (exists cur,
       lookup "current" summary = Some cur /\
       described_by current_table (path_get data ["current"]) cur) /\
    (exists days,
       lookup "forecast" summary = Some (JArr days) /\
       Forall2 (described_by day_table)
         (elements (path_get data ["forecast"; "forecastday"])) days) /\
    match elements (path_get data ["alerts"; "alert"]) with
    | [] => lookup "alerts" summary = None
    | items =>
        exists alerts,
          lookup "alerts" summary = Some (JArr alerts) /\
          Forall2 (described_by alert_table) items alerts
    end.
Proof.
  intro H. destruct data as [| | | | | f]; try discriminate H.
  unfold partial_response in H.
  apply andb_prop in H. destruct H as [H Hal].
  apply andb_prop in H. destruct H as [H Hloc].
  apply andb_prop in H. destruct H as [Hcur Hfc].
  destruct (current_summary_under f Hcur) as (cur & Ecur & Dcur).
  destruct (get_list_under _ f "forecast" "forecastday" Hfc)
    as (days & Edays & Hdays & Pdays).
  destruct (mapR_spec _ forecast_record (described_by day_table)
              forecast_record_spec days Pdays) as (recs & Erecs & Drecs).
  destruct (get_list_under _ f "alerts" "alert" Hal)
    as (als & Eals & Hals & Pals).
  destruct (mapR_spec _ alert_record (described_by alert_table)
              alert_record_spec als Pals) as (arecs & Earecs & Darecs).
  rewrite <- Hdays, <- Hals.
  unfold normalise.
  rewrite get_obj; cbn [rbind].
  rewrite get_obj; cbn [rbind].
  rewrite Edays; cbn [rbind].
  rewrite get_obj; cbn [rbind].
  rewrite (get_location_field f "name" Hloc); cbn [rbind].
  rewrite (get_location_field f "country" Hloc); cbn [rbind].
  rewrite (get_location_field f "localtime" Hloc); cbn [rbind].
  rewrite Ecur; cbn [rbind].
  cbn [py_iter rbind]. rewrite Erecs; cbn [rbind].
  rewrite get_obj; cbn [rbind].
  rewrite Eals; cbn [rbind].
  destruct als as [| a als].
  - cbn [truthy]. eexists. split; [reflexivity |].
    split; [reflexivity |]. split; [reflexivity |].
    split; [exists cur; split; [reflexivity | exact Dcur] |].
    split; [exists recs; split; [reflexivity | exact Drecs] |].
    reflexivity.
  - cbn [truthy py_iter rbind]. rewrite Earecs; cbn [rbind].
    eexists. split; [reflexivity |].
    split; [reflexivity |]. split; [reflexivity |].
    split; [exists cur; split; [reflexivity | exact Dcur] |].
    split; [exists recs; split; [reflexivity | exact Drecs] |].
    exists arecs. split; [reflexivity | exact Darecs].
Qed.

(** The summary is a non-empty dict without an ["error"] key. *)
Lemma normalise_no_error_key (data summary : json) :
  normalise py_repr data = Ok summary ->
  exists fields,
    summary = JObj fields /\ lookup "error" fields = None /\
    truthy summary = true.
Proof.
  unfold normalise. intro H.
  repeat match type of H with
         | rbind ?r _ = _ =>
             destruct r; cbn [rbind] in H; [| discriminate H]
         end.
  destruct (truthy _).
  - repeat match type of H with
           | rbind ?r _ = _ =>
               destruct r; cbn [rbind] in H; [| discriminate H]
           end.
    injection H as <-. eexists. repeat split.
  - injection H as <-. eexists. repeat split.
Qed.

(** ** Characters, whitespace and [strip] *)

(** The whitespace characters of the statements are the encodings of the
    code points that [strip] looks for. *)
Lemma is_space_whitespace (ch : string) : is_space ch = is_whitespace ch.
Proof. reflexivity. Qed.

Lemma whitespace_is_char (ch : string) :
  is_whitespace ch = true -> is_char ch = true.
Proof.
  unfold is_whitespace, whitespace. cbn [map existsb].
  repeat match goal with
         | |- (String.eqb ch ?x || _)%bool = true -> _ =>
             destruct (String.eqb_spec ch x) as [-> | _];
             [intros _; reflexivity | cbn [orb]]
         end.
  discriminate.
Qed.

Lemma characters_head (s : string) :
  match characters s with
  | [] => s = EmptyString
  | ch :: _ => starts_with_continuation ch = starts_with_continuation s
  end.
Proof.
  destruct s as [| c s]; [reflexivity |].
  cbn [characters]. destruct (characters s) as [| ch rest]; [reflexivity |].
  destruct (starts_with_continuation ch); reflexivity.
Qed.

(** Continuation bytes in front of a string that does not start with one
    form a group of their own. *)
Lemma characters_continuation (t s : string) :
  t <> EmptyString ->
  all_continuation t = true ->
  starts_with_continuation s = false ->
  characters (t ++ s) = t :: characters s.
Proof.
  induction t as [| d t IH]; intros Hne Ht Hs; [destruct Hne; reflexivity |].
  cbn [all_continuation] in Ht. apply andb_prop in Ht. destruct Ht as [Hd Ht].
  destruct t as [| d' t].
  - cbn [String.append characters].
    pose proof (characters_head s) as Hh.
    destruct (characters s) as [| ch rest]; [reflexivity |].
    rewrite Hh, Hs. reflexivity.
  - change (String d (String d' t) ++ s) with (String d (String d' t ++ s)).
    cbn [characters]. rewrite IH by (discriminate || assumption).
    cbn [all_continuation] in Ht. apply andb_prop in Ht.
    destruct Ht as [Hd' _]. cbn [starts_with_continuation]. rewrite Hd'.
    reflexivity.
Qed.

Lemma characters_char (ch s : string) :
  is_char ch = true ->
  starts_with_continuation s = false ->
  characters (ch ++ s) = ch :: characters s.
Proof.
  destruct ch as [| c t]; [discriminate |].
  cbn [is_char]. intros H Hs. apply andb_prop in H. destruct H as [Hc Ht].
  apply negb_true_iff in Hc.
  destruct t as [| d t].
  - cbn [String.append characters].
    pose proof (characters_head s) as Hh.
    destruct (characters s) as [| ch rest]; [reflexivity |].
    rewrite Hh, Hs. reflexivity.
  - change (String c (String d t) ++ s) with (String c (String d t ++ s)).
    cbn [characters].
    rewrite characters_continuation by (discriminate || assumption).
    cbn [all_continuation] in Ht. apply andb_prop in Ht.
    destruct Ht as [Hd _]. cbn [starts_with_continuation]. rewrite Hd.
    reflexivity.
Qed.

Lemma join_head (chars : list string) :
  forallb is_char chars = true ->
  starts_with_continuation (join chars) = false.
Proof.
  destruct chars as [| ch chars]; [reflexivity |].
  cbn [forallb join fold_right]. intro H. apply andb_prop in H.
  destruct H as [H _]. destruct ch as [| c t]; [discriminate H |].
  cbn [is_char] in H. apply andb_prop in H. destruct H as [H _].
  apply negb_true_iff in H. exact H.
Qed.

(** A text written as a list of characters has those characters. *)
Lemma characters_join (chars : list string) :
  forallb is_char chars = true -> characters (join chars) = chars.
Proof.
  induction chars as [| ch chars IH]; [reflexivity |].
  cbn [forallb]. intro H. apply andb_prop in H. destruct H as [Hc Hr].
  change (join (ch :: chars)) with (ch ++ join chars).
  rewrite characters_char by (assumption || apply join_head, Hr).
  rewrite IH by exact Hr. reflexivity.
Qed.

Lemma join_app (a b : list string) : join (a ++ b) = join a ++ join b.
Proof.
  induction a as [| x a IH]; [reflexivity |].
  cbn [app]. change (join (x :: a ++ b)) with (x ++ join (a ++ b)).
  change (join (x :: a)) with (x ++ join a).
  rewrite IH. clear. induction x as [| c x IHx]; [reflexivity |].
  cbn [String.append]. rewrite IHx. reflexivity.
Qed.

Lemma whitespace_are_chars (chars : list string) :
  forallb is_whitespace chars = true -> forallb is_char chars = true.
Proof.
  induction chars as [| ch chars IH]; [reflexivity |].
  cbn [forallb]. intro H. apply andb_prop in H. destruct H as [Hc Hr].
  rewrite (whitespace_is_char ch Hc), (IH Hr). reflexivity.
Qed.

Lemma drop_while_all {A} (p : A -> bool) (l : list A) :
  forallb p l = true -> drop_while p l = [].
Proof.
  induction l as [| x l IH]; [reflexivity |].
  cbn [forallb drop_while]. intro H. apply andb_prop in H.
  destruct H as [Hx Hl]. rewrite Hx. apply IH, Hl.
Qed.

Lemma drop_while_app {A} (p : A -> bool) (a b : list A) :
  forallb p a = true -> drop_while p (a ++ b) = drop_while p b.
Proof.
  induction a as [| x a IH]; [reflexivity |].
  cbn [forallb app drop_while]. intro H. apply andb_prop in H.
  destruct H as [Hx Ha]. rewrite Hx. apply IH, Ha.
Qed.

Lemma forallb_rev {A} (p : A -> bool) (l : list A) :
  forallb p (rev l) = forallb p l.
Proof.
  induction l as [| x l IH]; [reflexivity |].
  cbn [rev forallb]. rewrite forallb_app, IH. cbn [forallb].
  rewrite andb_true_r. apply andb_comm.
Qed.

(** A text made of whitespace characters only is stripped to nothing. *)
Lemma strip_whitespace (chars : list string) :
  forallb is_whitespace chars = true -> strip (join chars) = EmptyString.
Proof.
  intro H. unfold strip, lstrip, rstrip.
  rewrite characters_join by (apply whitespace_are_chars, H).
  rewrite (drop_while_all is_space chars) by exact H. reflexivity.
Qed.

(** A text that has whitespace characters around a core whose first and
    last characters are not whitespace is stripped to that core. *)
Lemma strip_padded (before core after : list string) (first last : string) :
  forallb is_whitespace before = true ->
  forallb is_whitespace after = true ->
  forallb is_char core = true ->
  hd_error core = Some first -> is_whitespace first = false ->
  hd_error (rev core) = Some last -> is_whitespace last = false ->
  strip (join before ++ join core ++ join after) = join core.
Proof.
  intros Hb Ha Hc Hf Hfw Hl Hlw. unfold strip, lstrip, rstrip.
  rewrite <- !join_app.
  rewrite characters_join.
  2: { rewrite !forallb_app, Hc.
       rewrite (whitespace_are_chars _ Hb), (whitespace_are_chars _ Ha).
       reflexivity. }
  rewrite (drop_while_app is_space before) by exact Hb.
  assert (E1 : drop_while is_space (core ++ after)%list
               = (core ++ after)%list).
  { destruct core as [| x core]; [discriminate Hf |].
    injection Hf as ->. cbn [app drop_while].
    rewrite is_space_whitespace, Hfw. reflexivity. }
  rewrite E1, rev_app_distr.
  rewrite (drop_while_app is_space (rev after))
    by (rewrite forallb_rev; exact Ha).
  assert (E2 : drop_while is_space (rev core) = rev core).
  { destruct (rev core) as [| x r]; [discriminate Hl |].
    injection Hl as ->. cbn [drop_while].
    rewrite is_space_whitespace, Hlw. reflexivity. }
  rewrite E2, rev_involutive. reflexivity.
Qed.

(** ** What each node does, case by case *)

Lemma get_llm_cases (w : world) :
  get_llm w
  = if str_truthy (GROQ_API_KEY w) then Ok (groq_client (GROQ_API_KEY w))
    else Raise (OtherException missing_groq_key_message).
Proof.
  unfold get_llm. destruct (str_truthy (GROQ_API_KEY w)); reflexivity.
Qed.

Lemma extract_location_node_cases (state : AgentState) (w : world) :
  extract_node state w
  = if str_truthy (GROQ_API_KEY w) then
      match llm_invoke (groq_client (GROQ_API_KEY w))
              [SystemMessage expected_location_prompt;
               HumanMessage (user_query state)] with
      | Ok content =>
          (append_message
             (AIMessage ("Extracted location: " ++ strip content))
             (set_location (strip content) state),
           log (location_request (GROQ_API_KEY w) (user_query state)) w)
      | Raise e =>
          (set_error ("Location extraction error: " ++ exn_str e) state,
           log (location_request (GROQ_API_KEY w) (user_query state)) w)
      end
    else
      (set_error ("Location extraction error: " ++ missing_groq_key_message)
         state, w).
Proof.
  unfold extract_location_node, invoke_llm. rewrite get_llm_cases.
  change location_system_prompt with expected_location_prompt.
  destruct (str_truthy (GROQ_API_KEY w)); [| reflexivity].
  destruct (llm_invoke _ _); reflexivity.
Qed.

Lemma analyze_and_recommend_node_cases (state : AgentState) (w : world) :
  analyze_node state w
  = if str_truthy (GROQ_API_KEY w) then
      if truthy (weather_data state) then
        match llm_invoke (groq_client (GROQ_API_KEY w))
                [SystemMessage expected_recommend_prompt;
                 HumanMessage
                   (expected_recommend_message (user_query state)
                      (json_dumps (weather_data state)))] with
        | Ok content =>
            (append_message (AIMessage "Generated recommendations")
               (set_recommendations content state),
             log (recommend_request (GROQ_API_KEY w) (user_query state)
                    (json_dumps (weather_data state))) w)
        | Raise e =>
            (set_error ("Recommendation generation error: " ++ exn_str e)
               state,
             log (recommend_request (GROQ_API_KEY w) (user_query state)
                    (json_dumps (weather_data state))) w)
        end
      else (set_error "No weather data available" state, w)
    else
      (set_error
         ("Recommendation generation error: " ++ missing_groq_key_message)
         state, w).
Proof.
  unfold analyze_and_recommend_node, invoke_llm. rewrite get_llm_cases.
  change recommend_system_prompt with expected_recommend_prompt.
  change (recommend_human_message (user_query state)
            (json_dumps (weather_data state)))
    with (expected_recommend_message (user_query state)
            (json_dumps (weather_data state))).
  destruct (str_truthy (GROQ_API_KEY w)); [| reflexivity].
  destruct (truthy (weather_data state)); [| reflexivity].
  cbn [negb]. destruct (llm_invoke _ _); reflexivity.
Qed.

(** The normalisation raises nothing that the handler for request failures
    would catch. *)
Lemma rbind_not_request {A B} (r : result A) (k : A -> result B) :
  not_request_exception r ->
  (forall a, not_request_exception (k a)) ->
  not_request_exception (rbind r k).
Proof.
  intros Hr Hk. destruct r as [a | e]; [apply Hk | exact Hr].
Qed.

Lemma get_not_request (v : json) (k : string) (d : json) :
  not_request_exception (get v k d).
Proof.
  destruct v as [| | [|] | | | f]; simpl; try exact I.
  destruct (lookup k f); exact I.
Qed.

Lemma py_iter_not_request (v : json) : not_request_exception (py_iter v).
Proof.
  destruct v as [| | [|] | | |]; exact I.
Qed.

Lemma mapR_not_request (f : json -> result json) :
  (forall x, not_request_exception (f x)) ->
  forall items, not_request_exception (mapR f items).
Proof.
  intros Hf items. induction items as [| x items IH]; [exact I |].
  cbn [mapR]. apply rbind_not_request; [apply Hf |]. intro y.
  apply rbind_not_request; [exact IH |]. intro ys. exact I.
Qed.

Ltac not_request :=
  repeat first
    [ exact I
    | apply get_not_request
    | apply py_iter_not_request
    | apply rbind_not_request; [| intro]
    | apply mapR_not_request; intro ].

Lemma normalise_not_request (data : json) :
  not_request_exception (normalise py_repr data).
Proof.
  unfold normalise.
  do 7 (apply rbind_not_request; [apply get_not_request | intro]).
  apply rbind_not_request.
  { unfold current_summary. not_request. }
  intro. apply rbind_not_request; [apply py_iter_not_request | intro].
  apply rbind_not_request.
  { apply mapR_not_request. intro. unfold forecast_record. not_request. }
  intro. do 2 (apply rbind_not_request; [apply get_not_request | intro]).
  destruct (truthy _); [| exact I].
  apply rbind_not_request; [apply py_iter_not_request | intro].
  apply rbind_not_request; [| intro; exact I].
  apply mapR_not_request. intro. unfold alert_record. not_request.
Qed.

Lemma fetch_weather_data_cases (loc : string) (w : world) :
  fetch_data loc w
  = if str_truthy (WEATHER_API_KEY w) then
      (match requests_get forecast_url
               (forecast_params (WEATHER_API_KEY w) loc) with
       | Ok data =>
           match normalise py_repr data with
           | Ok summary => WeatherSummary summary
           | Raise e => WeatherError ("Unexpected error: " ++ exn_str e)
           end
       | Raise (RequestException m) =>
           WeatherError ("Weather API error: " ++ m)
       | Raise (OtherException m) =>
           WeatherError ("Unexpected error: " ++ m)
       end,
       log (weather_request (WEATHER_API_KEY w) loc) w)
    else (WeatherError "WEATHER_API_KEY not set", w).
Proof.
  unfold fetch_weather_data.
  destruct (str_truthy (WEATHER_API_KEY w)); [| reflexivity].
  cbn [negb].
  destruct (requests_get _ _) as [data | [m | m]]; cbn [rbind];
    try reflexivity.
  pose proof (normalise_not_request data) as H.
  destruct (normalise py_repr data) as [summary | [m | m]];
    [reflexivity | destruct H | reflexivity].
Qed.

Lemma fetch_weather_node_summary (state : AgentState) (w w' : world)
  (summary : json) :
  usable_location (location state) = true ->
  fetch_data (location state) w = (WeatherSummary summary, w') ->
  fetch_node state w
  = (append_message
       (AIMessage ("Fetched weather data for "
                   ++ py_str py_repr (path_get summary ["location"])))
       (set_weather_data summary state), w') /\
  truthy summary = true /\
  exists data,
    requests_get forecast_url
      (forecast_params (WEATHER_API_KEY w) (location state)) = Ok data /\
    normalise py_repr data = Ok summary.
Proof.
  unfold usable_location. intros Hloc Hfetch.
  apply andb_prop in Hloc. destruct Hloc as [Hunk Hne].
  apply negb_true_iff in Hunk.
  assert (Hdata : exists data,
    requests_get forecast_url
      (forecast_params (WEATHER_API_KEY w) (location state)) = Ok data /\
    normalise py_repr data = Ok summary).
  { rewrite fetch_weather_data_cases in Hfetch.
    destruct (str_truthy (WEATHER_API_KEY w)); [| discriminate Hfetch].
    destruct (requests_get _ _) as [data | [m | m]]; try discriminate Hfetch.
    exists data. split; [reflexivity |].
    destruct (normalise py_repr data); [| discriminate Hfetch].
    injection Hfetch as -> _. reflexivity. }
  destruct Hdata as (data & Hget & Hnorm).
  destruct (normalise_no_error_key data summary Hnorm)
    as (fields & -> & _ & Htruthy).
  split; [| split; [exact Htruthy | exists data; split; assumption]].
  unfold fetch_weather_node. rewrite Hunk, Hne, Hfetch. cbn [orb negb].
  rewrite get_obj. reflexivity.
Qed.

(** ** Paths and step budget *)

Lemma run_three_steps (n : nat) (state : AgentState) (w : world) :
  run graph (3 + n) "extract_location" state [] w = invoke graph state w.
Proof.
  rewrite invoke_agent. cbn [Nat.add].
  rewrite run_extract_location.
  destruct (extract_node state w) as [s1 w1].
  unfold should_continue. destruct (str_truthy (error s1)).
  - rewrite run_error. reflexivity.
  - rewrite run_fetch_weather.
    destruct (fetch_node s1 w1) as [s2 w2].
    unfold after_weather_fetch. destruct (str_truthy (error s2)).
    + rewrite run_error. reflexivity.
    + rewrite run_analyze. reflexivity.
Qed.

(** X1: from any state, a run of the agent's graph completes, along one of
    three paths: extraction then error, extraction, weather then error, or
    extraction, weather then recommendation.  Three steps are enough: with
    any budget of three steps or more the run is the same as under the
    default limit. *)
Theorem agent_run_paths (state : AgentState) (w : world) :
  exists final path w',
    invoke graph state w = (Ok (final, path), w') /\
    In path agent_paths /\
    forall n,
      run graph (3 + n) "extract_location" state [] w
      = (Ok (final, path), w').
Proof.
  assert (H : exists final path w',
    invoke graph state w = (Ok (final, path), w') /\ In path agent_paths).
  { rewrite invoke_agent.
    destruct (extract_node state w) as [s1 w1].
    destruct (str_truthy (error s1)).
    { eexists _, _, _. split; [reflexivity | simpl; auto]. }
    destruct (fetch_node s1 w1) as [s2 w2].
    destruct (str_truthy (error s2)).
    { eexists _, _, _. split; [reflexivity | simpl; auto]. }
    destruct (analyze_node s2 w2) as [s3 w3].
    eexists _, _, _. split; [reflexivity | simpl; auto]. }
  destruct H as (final & path & w' & E & Hin).
  exists final, path, w'. split; [exact E |]. split; [exact Hin |].
  intro n. rewrite run_three_steps. exact E.
Qed.

(** ** Requests of a run *)

Lemma extract_location_node_calls (state : AgentState) (w : world) :
  (snd (extract_node state w) = w /\
   str_truthy (error (fst (extract_node state w))) = true) \/
  exists c, is_llm_call c = true /\ snd (extract_node state w) = log c w.
Proof.
  rewrite extract_location_node_cases.
  destruct (str_truthy (GROQ_API_KEY w)).
  - right. eexists. split; [| destruct (llm_invoke _ _); reflexivity].
    reflexivity.
  - left. split; reflexivity.
Qed.

Lemma fetch_weather_node_calls (state : AgentState) (w : world) :
  (snd (fetch_node state w) = w /\
   str_truthy (error (fst (fetch_node state w))) = true) \/
  exists c, is_llm_call c = false /\ snd (fetch_node state w) = log c w.
Proof.
  unfold fetch_weather_node.
  destruct (_ || _); [left; split; reflexivity |].
  rewrite fetch_weather_data_cases.
  destruct (str_truthy (WEATHER_API_KEY w)); [| left; split; reflexivity].
  right. exists (weather_request (WEATHER_API_KEY w) (location state)).
  split; [reflexivity |].
  destruct (requests_get _ _) as [data | [m | m]]; try reflexivity.
  destruct (normalise py_repr data) as [summary | e]; [| reflexivity].
  cbn [snd]. destruct (get summary "location" JNull); reflexivity.
Qed.

Lemma analyze_and_recommend_node_calls (state : AgentState) (w : world) :
  snd (analyze_node state w) = w \/
  exists c, is_llm_call c = true /\ snd (analyze_node state w) = log c w.
Proof.
  rewrite analyze_and_recommend_node_cases.
  destruct (str_truthy (GROQ_API_KEY w)); [| left; reflexivity].
  destruct (truthy (weather_data state)); [| left; reflexivity].
  right. eexists. split; [| destruct (llm_invoke _ _); reflexivity].
  reflexivity.
Qed.

(** X2: a run makes at most three requests, in a fixed order: the chat
    model for the location, then the weather provider, then the chat model
    for the recommendation; it stops after any of them, and never asks the
    provider before the chat model or the chat model twice in a row. *)
Theorem agent_run_requests (state : AgentState) (w : world) :
  exists new,
    snd (invoke graph state w) = extend w new /\
    In (map is_llm_call new) request_orders.
Proof.
  rewrite invoke_agent.
  pose proof (extract_location_node_calls state w) as H1.
  destruct (extract_node state w) as [s1 w1]. cbn [fst snd] in H1.
  destruct H1 as [[-> E1] | (c1 & K1 & ->)].
  { rewrite E1. exists []. rewrite extend_nil. simpl. auto. }
  destruct (str_truthy (error s1)).
  { exists [c1]. split; [reflexivity |]. simpl. rewrite K1. auto. }
  pose proof (fetch_weather_node_calls s1 (log c1 w)) as H2.
  destruct (fetch_node s1 (log c1 w)) as [s2 w2]. cbn [fst snd] in H2.
  destruct H2 as [[-> E2] | (c2 & K2 & ->)].
  { rewrite E2. exists [c1]. split; [reflexivity |]. simpl. rewrite K1. auto. }
  rewrite !log_extend, extend_extend. cbn [app].
  destruct (str_truthy (error s2)).
  { exists [c1; c2]. split; [reflexivity |]. simpl. rewrite K1, K2. auto. }
  pose proof (analyze_and_recommend_node_calls s2 (extend w [c1; c2])) as H3.
  destruct (analyze_node s2 (extend w [c1; c2])) as [s3 w3].
  cbn [fst snd] in H3.
  destruct H3 as [-> | (c3 & K3 & ->)].
  - exists [c1; c2]. split; [reflexivity |]. simpl. rewrite K1, K2. auto.
  - exists [c1; c2; c3]. split.
    + cbn [snd]. rewrite log_extend, extend_extend. reflexivity.
    + simpl. rewrite K1, K2, K3. auto 6.
Qed.

(** ** What a run keeps *)

Ltac keeps_nothing_added :=
  split; [reflexivity |];
  exists []; split; [symmetry; apply app_nil_r |];
  split; [simpl; lia | reflexivity].

Ltac keeps_one_added :=
  split; [reflexivity |];
  eexists [_]; split; [reflexivity |];
  split; [simpl; lia | reflexivity].

Lemma graph_nodes_keep (name : string) (node : AgentState -> M AgentState) :
  lookup name (nodes graph) = Some node ->
  keeps_query_and_log node /\ keeps_error node.
Proof.
  simpl.
  destruct (name =? "extract_location").
  { intros [= <-]. split; intros state w.
    - rewrite extract_location_node_cases.
      destruct (str_truthy (GROQ_API_KEY w)); [| keeps_nothing_added].
      destruct (llm_invoke _ _); [keeps_one_added | keeps_nothing_added].
    - intro H. rewrite extract_location_node_cases.
      destruct (str_truthy (GROQ_API_KEY w)); [| reflexivity].
      destruct (llm_invoke _ _); [exact H | reflexivity]. }
  destruct (name =? "fetch_weather").
  { intros [= <-]. split; intros state w.
    - unfold fetch_weather_node.
      destruct (_ || _); [keeps_nothing_added |].
      destruct (fetch_data (location state) w) as [[msg | summary] w'];
        [keeps_nothing_added |].
      destruct (get summary "location" JNull);
        [keeps_one_added | keeps_nothing_added].
    - intro H. unfold fetch_weather_node.
      destruct (_ || _); [reflexivity |].
      destruct (fetch_data (location state) w) as [[msg | summary] w'] eqn:E.
      + apply (fetch_weather_data_error_nonempty _ _ _ _ E).
      + destruct (get summary "location" JNull); [exact H | reflexivity]. }
  destruct (name =? "analyze").
  { intros [= <-]. split; intros state w.
    - rewrite analyze_and_recommend_node_cases.
      destruct (str_truthy (GROQ_API_KEY w)); [| keeps_nothing_added].
      destruct (truthy (weather_data state)); [| keeps_nothing_added].
      destruct (llm_invoke _ _); [keeps_one_added | keeps_nothing_added].
    - intro H. rewrite analyze_and_recommend_node_cases.
      destruct (str_truthy (GROQ_API_KEY w)); [| reflexivity].
      destruct (truthy (weather_data state)); [| reflexivity].
      destruct (llm_invoke _ _); [exact H | reflexivity]. }
  destruct (name =? "error").
  { intros [= <-]. split; intros state w.
    - keeps_nothing_added.
    - intro H. exact H. }
  discriminate.
Qed.

(** X3: whatever node a run starts from and whatever its step budget, when
    it completes it has left [user_query] as it was and has only added
    messages at the end of [messages]: at most one per node run, each an
    [AIMessage]. *)
Theorem run_keeps_query_and_log (steps : nat) :
  forall name state visited w final path w',
    run graph steps name state visited w = (Ok (final, path), w') ->
    user_query final = user_query state /\
    exists ran added,
      path = (visited ++ ran)%list /\
      messages final = (messages state ++ added)%list /\
      length added <= length ran /\
      forallb is_ai_message added = true.
Proof.
  induction steps as [| steps IH];
    intros name state visited w final path w' H.
  - discriminate H.
  - cbn [run] in H.
    destruct (lookup name (nodes graph)) as [node |] eqn:En;
      [| discriminate H].
    destruct (graph_nodes_keep name node En) as [Hk _].
    destruct (Hk state w) as (Hq & added & Hm & Hlen & Hai).
    destruct (node state w) as [s1 w1]. cbn [fst] in Hq, Hm.
    destruct (next_node graph name s1) as [target | e]; [| discriminate H].
    destruct (target =? END).
    + injection H as <- <- <-. split; [exact Hq |].
      exists [name], added. repeat split; assumption.
    + destruct (IH _ _ _ _ _ _ _ H)
        as (Hq' & ran & added' & Hp & Hm' & Hlen' & Hai').
      split; [rewrite Hq'; exact Hq |].
      exists (name :: ran), (added ++ added')%list.
      split; [rewrite Hp, <- app_assoc; reflexivity |].
      split; [rewrite Hm', Hm, app_assoc; reflexivity |].
      split; [rewrite length_app; simpl; lia |].
      rewrite forallb_app, Hai, Hai'. reflexivity.
Qed.

(** X4: no run empties a recorded error: whatever node it starts from, if
    [error] is non-empty at the start it is non-empty when the run
    completes. *)
Theorem run_keeps_error (steps : nat) :
  forall name state visited w final path w',
    run graph steps name state visited w = (Ok (final, path), w') ->
    str_truthy (error state) = true ->
    str_truthy (error final) = true.
Proof.
  induction steps as [| steps IH];
    intros name state visited w final path w' H Herr.
  - discriminate H.
  - cbn [run] in H.
    destruct (lookup name (nodes graph)) as [node |] eqn:En;
      [| discriminate H].
    destruct (graph_nodes_keep name node En) as [_ Hk].
    pose proof (Hk state w Herr) as Herr1.
    destruct (node state w) as [s1 w1]. cbn [fst] in Herr1.
    destruct (next_node graph name s1) as [target | e]; [| discriminate H].
    destruct (target =? END).
    + injection H as <- _ _. exact Herr1.
    + apply (IH _ _ _ _ _ _ _ H Herr1).
Qed.

(** ** From the weather node to the recommendation node *)

Lemma fetch_weather_node_unusable (state : AgentState) (w : world) :
  usable_location (location state) = false ->
  fetch_node state w = (set_error no_location_message state, w).
Proof.
  unfold usable_location, fetch_weather_node. intro H.
  destruct (location state =? "unknown"); [reflexivity |].
  cbn [negb andb] in H. rewrite H. reflexivity.
Qed.

Lemma fetch_weather_node_error (state : AgentState) (w w' : world)
  (msg : string) :
  usable_location (location state) = true ->
  fetch_data (location state) w = (WeatherError msg, w') ->
  fetch_node state w = (set_error msg state, w').
Proof.
  unfold usable_location, fetch_weather_node. intros H E.
  apply andb_prop in H. destruct H as [Hunk Hne].
  apply negb_true_iff in Hunk. rewrite Hunk, Hne, E. reflexivity.
Qed.

Lemma analyze_and_recommend_node_keeps (state : AgentState) (w : world) :
  weather_data (fst (analyze_node state w)) = weather_data state /\
  location (fst (analyze_node state w)) = location state.
Proof.
  rewrite analyze_and_recommend_node_cases.
  destruct (str_truthy (GROQ_API_KEY w)); [| split; reflexivity].
  destruct (truthy (weather_data state)); [| split; reflexivity].
  destruct (llm_invoke _ _); split; reflexivity.
Qed.

Lemma extract_location_node_keys (state : AgentState) (w : world) :
  same_keys (snd (extract_node state w)) w.
Proof.
  destruct (extract_location_node_world state w) as (new & E & _).
  rewrite E. split; reflexivity.
Qed.

(** X5: when a run reaches the recommendation node, the [weather_data] it
    works on is non-empty and is exactly the normalisation of the body the
    provider returned for the request about [location], and [location] is
    neither empty nor ["unknown"]. *)
Theorem analyze_receives_normalised_weather (state final : AgentState)
  (path : list string) (w w' : world) :
  invoke graph state w = (Ok (final, path), w') ->
  last path EmptyString = "analyze" ->
  usable_location (location final) = true /\
  truthy (weather_data final) = true /\
  exists data,
    requests_get forecast_url
      (forecast_params (WEATHER_API_KEY w) (location final)) = Ok data /\
    normalise py_repr data = Ok (weather_data final).
Proof.
  intros H Hlast. rewrite invoke_agent in H.
  pose proof (extract_location_node_keys state w) as [_ Hkey].
  destruct (extract_node state w) as [s1 w1]. cbn [snd] in Hkey.
  destruct (str_truthy (error s1)) eqn:E1.
  { injection H as <- <- <-. discriminate Hlast. }
  destruct (usable_location (location s1)) eqn:Hu.
  2: { rewrite (fetch_weather_node_unusable s1 w1 Hu) in H.
       cbn [error set_error] in H.
       injection H as <- <- <-. discriminate Hlast. }
  destruct (fetch_data (location s1) w1) as [[msg | summary] w2] eqn:Ef.
  { rewrite (fetch_weather_node_error s1 w1 w2 msg Hu Ef) in H.
    cbn [error set_error] in H.
    rewrite (fetch_weather_data_error_nonempty _ _ _ _ Ef) in H.
    injection H as <- <- <-. discriminate Hlast. }
  destruct (fetch_weather_node_summary s1 w1 w2 summary Hu Ef)
    as (En & Htruthy & data & Hget & Hnorm).
  rewrite En in H. cbn [error append_message set_weather_data] in H.
  rewrite E1 in H.
  match type of H with
  | context [analyze_node ?s ?x] =>
      pose proof (analyze_and_recommend_node_keeps s x) as [Hwd Hloc];
      destruct (analyze_node s x) as [s3 w3]
  end.
  cbn [fst weather_data location append_message set_weather_data] in Hwd, Hloc.
  injection H as <- _ _.
  rewrite Hwd, Hloc, <- Hkey.
  split; [exact Hu |]. split; [exact Htruthy |].
  exists data. split; assumption.
Qed.

(** ** Whole runs of [process_query] *)

Lemma process_query_valid (query g k : string) (w : world) :
  str_truthy (GROQ_API_KEY (set_keys g k w)) = true ->
  str_truthy (WEATHER_API_KEY (set_keys g k w)) = true ->
  str_truthy (strip query) = true ->
  process_query py_repr json_dumps llm_invoke requests_get query g k w
  = let (outcome, w') :=
      invoke graph (initial_state query) (set_keys g k w) in
    match outcome with
    | Ok (final, _) => (recommendations final, w')
    | Raise e =>
        ("❌ **Error**: " ++ exn_str e ++ nl ++ nl ++
         "Please check your API keys and try again.", w')
    end.
Proof.
  intros Hg Hk Hq. unfold process_query.
  rewrite Hg, Hk, Hq. reflexivity.
Qed.

(** X6: the successful run, end to end.  With both credentials in force and
    a query that passes the blank-query guard, when the chat model names a
    usable location, the provider's body normalises and the chat model
    answers the recommendation request, [process_query] returns the model's
    answer as it is, after exactly three requests: the location request, the
    forecast request for the stripped location, and the recommendation
    request that carries the query and the serialised summary. *)
Theorem successful_run (query g k gk wk content text : string)
  (data summary : json) (w : world) :
  GROQ_API_KEY (set_keys g k w) = gk ->
  WEATHER_API_KEY (set_keys g k w) = wk ->
  str_truthy gk = true ->
  str_truthy wk = true ->
  str_truthy (strip query) = true ->
  llm_invoke (groq_client gk)
    [SystemMessage expected_location_prompt; HumanMessage query]
  = Ok content ->
  usable_location (strip content) = true ->
  requests_get "http://api.weatherapi.com/v1/forecast.json"
    [("key", JStr wk); ("q", JStr (strip content)); ("days", JNum (NInt 3));
     ("aqi", JStr "no"); ("alerts", JStr "yes")] = Ok data ->
  normalise py_repr data = Ok summary ->
  llm_invoke (groq_client gk)
    [SystemMessage expected_recommend_prompt;
     HumanMessage (expected_recommend_message query (json_dumps summary))]
  = Ok text ->
  process_query py_repr json_dumps llm_invoke requests_get query g k w
  = (text,
     extend (set_keys g k w)
       [location_request gk query;
        weather_request wk (strip content);
        recommend_request gk query (json_dumps summary)]).
Proof.
  intros Hgk Hwk Hg Hk Hq Hloc Hu Hget Hnorm Hrec.
  rewrite process_query_valid by (rewrite ?Hgk, ?Hwk; assumption).
  rewrite invoke_agent, extract_location_node_cases.
  rewrite Hgk, Hg. cbn [initial_state user_query]. rewrite Hloc.
  cbn [error append_message set_location initial_state str_truthy].
  assert (Ef : fetch_data (strip content)
                 (log (location_request gk query) (set_keys g k w))
               = (WeatherSummary summary,
                  log (weather_request wk (strip content))
                    (log (location_request gk query) (set_keys g k w)))).
  { rewrite fetch_weather_data_cases.
    change (WEATHER_API_KEY (log (location_request gk query) (set_keys g k w)))
      with (WEATHER_API_KEY (set_keys g k w)).
    rewrite Hwk, Hk.
    change forecast_url with "http://api.weatherapi.com/v1/forecast.json".
    change (forecast_params wk (strip content))
      with [("key", JStr wk); ("q", JStr (strip content));
            ("days", JNum (NInt 3)); ("aqi", JStr "no");
            ("alerts", JStr "yes")].
    rewrite Hget, Hnorm. reflexivity. }
  match goal with
  | |- context [fetch_node ?s ?x] =>
      destruct (fetch_weather_node_summary s x _ summary Hu Ef)
        as (En & Htruthy & _);
      rewrite En
  end.
  cbn [error append_message set_weather_data set_location initial_state
       str_truthy].
  rewrite analyze_and_recommend_node_cases.
  change (GROQ_API_KEY
            (log (weather_request wk (strip content))
               (log (location_request gk query) (set_keys g k w))))
    with (GROQ_API_KEY (set_keys g k w)).
  rewrite Hgk, Hg.
  cbn [weather_data user_query append_message set_weather_data set_location
       initial_state].
  rewrite Htruthy, Hrec.
  cbn [recommendations append_message set_recommendations].
  rewrite !log_extend, !extend_extend. reflexivity.
Qed.

(** X7: when the chat model fails on the location request, [process_query]
    returns the warning text that quotes "Location extraction error: "
    followed by the failure text, and that request is the only one made. *)
Theorem extraction_failure_run (query g k gk : string) (e : exn) (w : world) :
  GROQ_API_KEY (set_keys g k w) = gk ->
  str_truthy gk = true ->
  str_truthy (WEATHER_API_KEY (set_keys g k w)) = true ->
  str_truthy (strip query) = true ->
  llm_invoke (groq_client gk)
    [SystemMessage expected_location_prompt; HumanMessage query]
  = Raise e ->
  process_query py_repr json_dumps llm_invoke requests_get query g k w
  = ("⚠️ **Error**: Location extraction error: " ++ exn_str e ++ "

Please try again with a different query or check your API keys.",
     extend (set_keys g k w) [location_request gk query]).
Proof.
  intros Hgk Hg Hk Hq Hloc.
  rewrite process_query_valid by (rewrite ?Hgk; assumption).
  rewrite invoke_agent, extract_location_node_cases.
  rewrite Hgk, Hg. cbn [initial_state user_query]. rewrite Hloc.
  reflexivity.
Qed.

(** X8: when the chat model's reply is "unknown" with whitespace
    characters, of any of Python's kinds, before and after it, or is made
    of whitespace characters only, [process_query] returns the warning text
    that asks for a location, and the location request is the only request
    made: the weather provider is not asked. *)
Theorem no_location_run (query g k gk content : string)
  (before after : list string) (w : world) :
  GROQ_API_KEY (set_keys g k w) = gk ->
  str_truthy gk = true ->
  str_truthy (WEATHER_API_KEY (set_keys g k w)) = true ->
  str_truthy (strip query) = true ->
  llm_invoke (groq_client gk)
    [SystemMessage expected_location_prompt; HumanMessage query]
  = Ok content ->
  forallb is_whitespace before = true ->
  forallb is_whitespace after = true ->
  content = join before ++ "unknown" ++ join after \/ content = join before ->
  process_query py_repr json_dumps llm_invoke requests_get query g k w
  = ("⚠️ **Error**: No location specified. Please include a city or location in your query.

Please try again with a different query or check your API keys.",
     extend (set_keys g k w) [location_request gk query]).
Proof.
  intros Hgk Hg Hk Hq Hloc Hb Ha Hcontent.
  assert (Hu : usable_location (strip content) = false).
  { unfold usable_location. destruct Hcontent as [-> | ->].
    - change "unknown" with (join ["u"; "n"; "k"; "n"; "o"; "w"; "n"]).
      rewrite (strip_padded before _ after "u" "n" Hb Ha);
        reflexivity.
    - rewrite (strip_whitespace before Hb). reflexivity. }
  rewrite process_query_valid by (rewrite ?Hgk; assumption).
  rewrite invoke_agent, extract_location_node_cases.
  rewrite Hgk, Hg. cbn [initial_state user_query]. rewrite Hloc.
  cbn [error append_message set_location initial_state str_truthy].
  rewrite fetch_weather_node_unusable by exact Hu.
  reflexivity.
Qed.

(** ** Input guards *)

(** X9: [process_query] makes a request only when both credentials in
    force are non-empty and the query is not made of whitespace characters
    only, whatever their kind; otherwise the log of requests is left as it
    was. *)
Theorem requests_need_inputs (query g k : string) (w : world) :
  calls (snd (process_query py_repr json_dumps llm_invoke requests_get
                query g k w)) <> calls w ->
  str_truthy (str_or g (GROQ_API_KEY w)) = true /\
  str_truthy (str_or k (WEATHER_API_KEY w)) = true /\
  forall chars, forallb is_whitespace chars = true -> query <> join chars.
Proof.
  unfold process_query. cbn [GROQ_API_KEY WEATHER_API_KEY set_keys].
  destruct (str_truthy (str_or g (GROQ_API_KEY w)));
    [| intro H; exfalso; apply H; reflexivity].
  destruct (str_truthy (str_or k (WEATHER_API_KEY w)));
    [| intro H; exfalso; apply H; reflexivity].
  destruct (str_truthy (strip query)) eqn:Hq;
    [| intro H; exfalso; apply H; reflexivity].
  intros _. repeat split.
  intros chars Hc ->. rewrite (strip_whitespace chars Hc) in Hq.
  discriminate Hq.
Qed.

(** X10: with both credentials in force, a query made of whitespace
    characters only, of any of Python's kinds (the empty query included),
    is answered "Please enter a query" without any request; the credentials
    passed are stored all the same. *)
Theorem blank_query_rejected (chars : list string) (g k : string)
  (w : world) :
  str_truthy (GROQ_API_KEY (set_keys g k w)) = true ->
  str_truthy (WEATHER_API_KEY (set_keys g k w)) = true ->
  forallb is_whitespace chars = true ->
  process_query py_repr json_dumps llm_invoke requests_get (join chars) g k w
  = ("❌ Please enter a query", set_keys g k w).
Proof.
  intros Hg Hk Hq. unfold process_query.
  rewrite Hg, Hk, (strip_whitespace chars Hq). reflexivity.
Qed.

(** ** Failures of the weather client *)

(** X11: the weather client reports "Weather API error: ..." exactly when
    the key is set and the request itself raised a request exception, and
    then with that exception's text; a body that cannot be normalised is
    never reported under that heading. *)
Theorem request_failures_told_apart (loc text : string) (w : world) :
  fst (fetch_data loc w) = WeatherError ("Weather API error: " ++ text)
  <->
  str_truthy (WEATHER_API_KEY w) = true /\
  requests_get forecast_url (forecast_params (WEATHER_API_KEY w) loc)
  = Raise (RequestException text).
Proof.
  rewrite fetch_weather_data_cases.
  destruct (str_truthy (WEATHER_API_KEY w)).
  - cbn [fst].
    destruct (requests_get _ _) as [data | [m | m]].
    + destruct (normalise py_repr data); split;
        [discriminate | intros [_ H]; discriminate H
        | discriminate | intros [_ H]; discriminate H].
    + split.
      * intros [= ->]. split; reflexivity.
      * intros [_ [= ->]]. reflexivity.
    + split; [discriminate | intros [_ H]; discriminate H].
  - split; [discriminate | intros [H _]; discriminate H].
Qed.

(** ** The shape of every summary *)

Ltac open_binds H :=
  repeat match type of H with
         | rbind ?r _ = _ =>
             let E := fresh "E" in
             destruct r eqn:E; cbn [rbind] in H; [| discriminate H]
         end.

Lemma current_summary_keys (current out : json) :
  current_summary current = Ok out -> has_keys current_table out.
Proof.
  unfold current_summary. intro H. open_binds H.
  injection H as <-. eexists. split; reflexivity.
Qed.

Lemma forecast_record_keys (day out : json) :
  forecast_record day = Ok out -> has_keys day_table out.
Proof.
  unfold forecast_record. intro H. open_binds H.
  injection H as <-. eexists. split; reflexivity.
Qed.

Lemma alert_record_keys (alert out : json) :
  alert_record alert = Ok out -> has_keys alert_table out.
Proof.
  unfold alert_record. intro H. open_binds H.
  injection H as <-. eexists. split; reflexivity.
Qed.

Lemma mapR_Forall (f : json -> result json) (P : json -> Prop) :
  (forall x out, f x = Ok out -> P out) ->
  forall items outs,
    mapR f items = Ok outs ->
    Forall P outs /\ length outs = length items.
Proof.
  intros Hf items. induction items as [| x items IH]; intros outs H.
  - injection H as <-. split; [constructor | reflexivity].
  - cbn [mapR] in H. open_binds H. injection H as <-.
    destruct (IH _ eq_refl) as [HF HL].
    split; [constructor; [eapply Hf; eassumption | exact HF] |].
    simpl. rewrite HL. reflexivity.
Qed.

Lemma truthy_py_iter (v : json) (items : list json) :
  truthy v = true -> py_iter v = Ok items -> items <> [].
Proof.
  destruct v as [| b | n | s | l | f]; try discriminate.
  - destruct s as [| c s]; [discriminate |]. intros _ [= <-].
    unfold chars. cbn [characters].
    destruct (characters s) as [| ch rest]; [discriminate |].
    destruct (starts_with_continuation ch); discriminate.
  - destruct l; [discriminate |]. intros _ [= <-]. discriminate.
  - destruct f; [discriminate |]. intros _ [= <-]. discriminate.
Qed.

(** What a successful normalisation went through. *)
Lemma normalise_inv (data summary : json) :
  normalise py_repr data = Ok summary ->
  exists label localtime cur days alerts_info alerts,
    has_keys current_table cur /\
    Forall (has_keys day_table) days /\
    get data "alerts" (JObj []) = Ok alerts_info /\
    get alerts_info "alert" (JArr []) = Ok alerts /\
    if truthy alerts then
      exists recs,
        recs <> [] /\ Forall (has_keys alert_table) recs /\
        summary = JObj [("location", JStr label); ("local_time", localtime);
                        ("current", cur); ("forecast", JArr days);
                        ("alerts", JArr recs)]
    else
      summary = JObj [("location", JStr label); ("local_time", localtime);
                      ("current", cur); ("forecast", JArr days)].
Proof.
  unfold normalise. intro H. open_binds H.
  match goal with
  | En : get _ "name" _ = Ok ?n, Ey : get _ "country" _ = Ok ?y,
    El : get _ "localtime" _ = Ok ?lt,
    Ec : current_summary _ = Ok ?c, Ed : mapR forecast_record _ = Ok ?d,
    Eb : get ?ai "alert" _ = Ok ?al |- _ =>
      exists (py_str py_repr n ++ ", " ++ py_str py_repr y), lt, c, d, ai, al;
      split; [exact (current_summary_keys _ _ Ec) |];
      split; [exact (proj1 (mapR_Forall _ _ forecast_record_keys _ _ Ed)) |];
      split; [reflexivity |]; split; [exact Eb |];
      revert H; destruct (truthy al) eqn:Ht; intro H
  end.
  - open_binds H. injection H as <-.
    match goal with
    | Ei : py_iter _ = Ok ?items, Em : mapR alert_record ?items = Ok ?recs
      |- _ =>
        destruct (mapR_Forall _ _ alert_record_keys _ _ Em) as [HF HL];
        exists recs; split; [| split; [exact HF | reflexivity]];
        pose proof (truthy_py_iter _ _ Ht Ei) as Hne;
        destruct recs; [destruct items; [exact Hne | discriminate HL]
                       | discriminate]
    end.
  - injection H as <-. reflexivity.
Qed.

(** X12: every summary has the same shape, whatever the provider sent: the
    keys [location], [local_time], [current], [forecast], in that order,
    followed by [alerts] or not; [location] is a text; [current] has the
    ten keys of its table; every forecast record has the eleven keys of
    its table; and an [alerts] entry, when there is one, is a non-empty
    list of records with the three alert keys. *)
Theorem normalise_schema (data summary : json) :
  normalise py_repr data = Ok summary ->
  exists fields,
    summary = JObj fields /\
    (map fst fields = summary_keys \/
     map fst fields = (summary_keys ++ ["alerts"])%list) /\
    (exists label, lookup "location" fields = Some (JStr label)) /\
    (exists cur,
       lookup "current" fields = Some cur /\ has_keys current_table cur) /\
    (exists days,
       lookup "forecast" fields = Some (JArr days) /\
       Forall (has_keys day_table) days) /\
    (forall alerts,
       lookup "alerts" fields = Some alerts ->
       exists recs,
         alerts = JArr recs /\ recs <> [] /\
         Forall (has_keys alert_table) recs).
Proof.
  intro H.
  destruct (normalise_inv data summary H)
    as (label & localtime & cur & days & ai & al & Hcur & Hdays & _ & _ & Hs).
  destruct (truthy al).
  - destruct Hs as (recs & Hne & Hrecs & ->).
    eexists. split; [reflexivity |].
    split; [right; reflexivity |].
    split; [exists label; reflexivity |].
    split; [exists cur; split; [reflexivity | exact Hcur] |].
    split; [exists days; split; [reflexivity | exact Hdays] |].
    intros alerts [= <-]. exists recs. repeat split; assumption.
  - subst summary.
    eexists. split; [reflexivity |].
    split; [left; reflexivity |].
    split; [exists label; reflexivity |].
    split; [exists cur; split; [reflexivity | exact Hcur] |].
    split; [exists days; split; [reflexivity | exact Hdays] |].
    intros alerts [=].
Qed.

(** X13: whenever the normalisation succeeds, the summary has an [alerts]
    entry exactly when the provider's [alerts.alert] value is truthy: a
    missing value, [None], [false], zero, an empty text, an empty list and
    an empty dict all give a summary without [alerts]. *)
Theorem alerts_entry_iff (data : json) (fields : list (string * json)) :
  normalise py_repr data = Ok (JObj fields) ->
  (lookup "alerts" fields <> None
   <-> truthy (path_get data ["alerts"; "alert"]) = true).
Proof.
  intro H.
  destruct (normalise_inv data _ H)
    as (label & localtime & cur & days & ai & al & _ & _ & Ea & Eb & Hs).
  assert (Ht : truthy (path_get data ["alerts"; "alert"]) = truthy al).
  { destruct data as [| | | | | f]; try discriminate Ea.
    rewrite get_obj in Ea. injection Ea as <-. cbn [path_get].
    destruct (lookup "alerts" f) as [x |].
    - destruct x as [| | | | | g]; try discriminate Eb.
      rewrite get_obj in Eb. injection Eb as <-.
      destruct (lookup "alert" g); reflexivity.
    - injection Eb as <-. reflexivity. }
  rewrite Ht.
  destruct (truthy al).
  - destruct Hs as (recs & _ & _ & [= ->]). split; [reflexivity | discriminate].
  - injection Hs as ->. split; [intro C; exfalso; apply C; reflexivity
                               | discriminate].
Qed.

(** X17: an [alerts] block whose [alert] value is missing or falsy never
    makes the normalisation fail and never shows in its result: the body
    with the block is normalised exactly as the body without it. *)
Theorem falsy_alert_is_no_alert (fields block : list (string * json)) :
  lookup "alerts" fields = None ->
  truthy (path_get (JObj block) ["alert"]) = false ->
  normalise py_repr (JObj (("alerts", JObj block) :: fields))
  = normalise py_repr (JObj fields).
Proof.
  intros Hnone Hfalsy. unfold normalise.
  cbn [get lookup String.eqb Ascii.eqb Bool.eqb].
  rewrite Hnone.
  repeat match goal with
         | |- rbind ?r _ = rbind ?r _ =>
             destruct r; cbn [rbind]; [| reflexivity]
         | |- rbind (match ?o with Some _ => _ | None => _ end) _ = _ =>
             destruct o; cbn [rbind]
         end.
  rewrite !get_obj. cbn [lookup rbind]. cbn [path_get] in Hfalsy.
  destruct (lookup "alert" block) as [v |]; [rewrite Hfalsy |]; reflexivity.
Qed.

(** ** What a run never reports *)

Lemma fetch_weather_data_error_text (loc msg : string) (w w' : world) :
  fetch_data loc w = (WeatherError msg, w') ->
  msg <> "No weather data available".
Proof.
  rewrite fetch_weather_data_cases.
  destruct (str_truthy (WEATHER_API_KEY w)); [| intros [= <- _]; discriminate].
  destruct (requests_get _ _) as [data | [m | m]];
    [destruct (normalise py_repr data) | |];
    intros [= <- _]; discriminate.
Qed.

(** X14: a run of [process_query]'s graph never ends with the error "No
    weather data available": the recommendation node is reached only with
    a non-empty summary, so that branch of it is not taken. *)
Theorem no_weather_data_not_reported (query : string) (final : AgentState)
  (path : list string) (w w' : world) :
  invoke graph (initial_state query) w = (Ok (final, path), w') ->
  error final <> "No weather data available".
Proof.
  intro H. rewrite invoke_agent, extract_location_node_cases in H.
  destruct (str_truthy (GROQ_API_KEY w)) eqn:Hg.
  2: { injection H as <- _ _. discriminate. }
  cbn [initial_state user_query] in H.
  destruct (llm_invoke _ _) as [content | e].
  2: { injection H as <- _ _. discriminate. }
  cbn [error append_message set_location initial_state str_truthy] in H.
  destruct (usable_location (strip content)) eqn:Hu.
  2: { rewrite fetch_weather_node_unusable in H by exact Hu.
       injection H as <- _ _. discriminate. }
  match type of H with
  | context [fetch_node ?s ?x] =>
      destruct (fetch_data (strip content) x) as [[msg | summary] w2] eqn:Ef;
      [ rewrite (fetch_weather_node_error s x w2 msg Hu Ef) in H
      | destruct (fetch_weather_node_summary s x w2 summary Hu Ef)
          as (En & Htruthy & _); rewrite En in H ]
  end.
  - cbn [error set_error] in H.
    rewrite (fetch_weather_data_error_nonempty _ _ _ _ Ef) in H.
    injection H as <- _ _. cbn [error set_recommendations set_error].
    apply (fetch_weather_data_error_text _ _ _ _ Ef).
  - cbn [error append_message set_weather_data set_location initial_state
         str_truthy] in H.
    rewrite analyze_and_recommend_node_cases in H.
    destruct (fetch_weather_data_world (strip content)
                (log (location_request (GROQ_API_KEY w) query) w))
      as (new & Hw2 & _).
    rewrite Ef in Hw2. cbn [snd] in Hw2. subst w2.
    cbn [GROQ_API_KEY extend log] in H. rewrite Hg in H.
    cbn [weather_data append_message set_weather_data] in H.
    rewrite Htruthy in H.
    destruct (llm_invoke _ _) in H; injection H as <- _ _; discriminate.
Qed.

(** ** What the provider is asked *)

Lemma fetch_weather_node_request (state : AgentState) (w : world) :
  snd (fetch_node state w) = w \/
  (usable_location (location state) = true /\
   snd (fetch_node state w)
   = log (weather_request (WEATHER_API_KEY w) (location state)) w).
Proof.
  destruct (usable_location (location state)) eqn:Hu.
  - destruct (fetch_data (location state) w) as [[msg | summary] w'] eqn:Ef.
    + rewrite (fetch_weather_node_error state w w' msg Hu Ef). cbn [snd].
      rewrite fetch_weather_data_cases in Ef.
      destruct (str_truthy (WEATHER_API_KEY w)).
      * right. split; [reflexivity |]. injection Ef as _ <-. reflexivity.
      * left. injection Ef as _ <-. reflexivity.
    + destruct (fetch_weather_node_summary state w w' summary Hu Ef)
        as (En & _). rewrite En. cbn [snd].
      rewrite fetch_weather_data_cases in Ef.
      destruct (str_truthy (WEATHER_API_KEY w)); [| discriminate Ef].
      right. split; [reflexivity |]. injection Ef as _ <-. reflexivity.
  - left. rewrite (fetch_weather_node_unusable state w Hu). reflexivity.
Qed.

(** X15: the only request a run makes to the weather provider is the
    forecast request, with the stored weather key, for the location the
    chat model has just returned, stripped; that location is never empty
    and never ["unknown"]. *)
Theorem provider_asked_about_extracted_location (state : AgentState)
  (w : world) :
  exists new,
    snd (invoke graph state w) = extend w new /\
    forall url params,
      In (HttpCall url params) new ->
      exists content,
        llm_invoke (groq_client (GROQ_API_KEY w))
          [SystemMessage expected_location_prompt;
           HumanMessage (user_query state)] = Ok content /\
        strip content <> EmptyString /\
        strip content <> "unknown" /\
        url = "http://api.weatherapi.com/v1/forecast.json" /\
        params = [("key", JStr (WEATHER_API_KEY w));
                  ("q", JStr (strip content)); ("days", JNum (NInt 3));
                  ("aqi", JStr "no"); ("alerts", JStr "yes")].
Proof.
  assert (Huse : forall loc,
    usable_location loc = true -> loc <> EmptyString /\ loc <> "unknown").
  { unfold usable_location. intros loc H. apply andb_prop in H.
    destruct H as [Hunk Hne]. split; intros ->; discriminate. }
  rewrite invoke_agent, extract_location_node_cases.
  destruct (str_truthy (GROQ_API_KEY w)).
  2: { cbn [error set_error str_truthy String.append].
       exists []. rewrite extend_nil.
       split; [reflexivity | intros url params []]. }
  destruct (llm_invoke _ _) as [content | e].
  2: { cbn [error set_error str_truthy String.append].
       exists [location_request (GROQ_API_KEY w) (user_query state)].
       split; [reflexivity | intros url params [C | []]; discriminate C]. }
  match goal with
  | |- context [fetch_node ?s ?x] =>
      set (s1 := s); set (w1 := x);
      pose proof (fetch_weather_node_request s1 w1) as H2;
      destruct (fetch_node s1 w1) as [s2 w2]
  end.
  cbn [snd] in H2.
  destruct (str_truthy (error s1)).
  { exists [location_request (GROQ_API_KEY w) (user_query state)].
    split; [reflexivity | intros url params [C | []]; discriminate C]. }
  assert (Hgoal : forall c3s,
    Forall (fun c => is_llm_call c = true) c3s ->
    exists new,
      extend w2 c3s = extend w new /\
      forall url params,
        In (HttpCall url params) new ->
        exists content0,
          Ok content = Ok content0 /\
          strip content0 <> EmptyString /\
          strip content0 <> "unknown" /\
          url = "http://api.weatherapi.com/v1/forecast.json" /\
          params = [("key", JStr (WEATHER_API_KEY w));
                    ("q", JStr (strip content0)); ("days", JNum (NInt 3));
                    ("aqi", JStr "no"); ("alerts", JStr "yes")]).
  { intros c3s Hc3.
    assert (Hllm : forall url params, ~ In (HttpCall url params) c3s).
    { intros url params Hin.
      rewrite Forall_forall in Hc3. apply Hc3 in Hin. discriminate Hin. }
    destruct H2 as [-> | [Hu ->]]; subst w1.
    - exists (location_request (GROQ_API_KEY w) (user_query state) :: c3s).
      split; [rewrite log_extend, extend_extend; reflexivity |].
      intros url params [C | Hin]; [discriminate C |].
      destruct (Hllm _ _ Hin).
    - exists (location_request (GROQ_API_KEY w) (user_query state)
              :: weather_request (WEATHER_API_KEY w) (strip content) :: c3s).
      split; [rewrite !log_extend, !extend_extend; reflexivity |].
      intros url params [C | [C | Hin]].
      + discriminate C.
      + exists content. destruct (Huse _ Hu) as [Hne Hunk].
        unfold weather_request in C. injection C as <- <-.
        repeat split; assumption.
      + destruct (Hllm _ _ Hin). }
  destruct (str_truthy (error s2)).
  { destruct (Hgoal [] (Forall_nil _)) as (new & E & Hn).
    rewrite extend_nil in E. exists new. split; [exact E | exact Hn]. }
  pose proof (analyze_and_recommend_node_calls s2 w2) as H3.
  destruct (analyze_node s2 w2) as [s3 w3]. cbn [snd] in H3.
  destruct H3 as [-> | (c3 & K3 & ->)].
  - destruct (Hgoal [] (Forall_nil _)) as (new & E & Hn).
    rewrite extend_nil in E. exists new. split; [exact E | exact Hn].
  - destruct (Hgoal [c3] (Forall_cons _ K3 (Forall_nil _))) as (new & E & Hn).
    exists new. split; [rewrite log_extend; exact E | exact Hn].
Qed.

(** ** The exception handler of [process_query] *)

(** X16: once the three input guards are passed, the run of the graph never
    raises, so the handler that would answer "Error: ... Please check your
    API keys and try again." is not used: [process_query] returns the
    [recommendations] field of the state the run ends with. *)
Theorem process_query_returns_recommendations (query g k : string)
  (w : world) :
  str_truthy (GROQ_API_KEY (set_keys g k w)) = true ->
  str_truthy (WEATHER_API_KEY (set_keys g k w)) = true ->
  str_truthy (strip query) = true ->
  exists final path,
    fst (invoke graph (initial_state query) (set_keys g k w))
    = Ok (final, path) /\
    process_query py_repr json_dumps llm_invoke requests_get query g k w
    = (recommendations final,
       snd (invoke graph (initial_state query) (set_keys g k w))).
Proof.
  intros Hg Hk Hq.
  destruct (invoke_agent_ok (initial_state query) (set_keys g k w))
    as (final & path & E).
  exists final, path. split; [exact E |].
  rewrite process_query_valid by assumption.
  destruct (invoke graph (initial_state query) (set_keys g k w))
    as [outcome w'].
  cbn [fst] in E. subst outcome. reflexivity.
Qed.

End Properties.

(** * The statements at concrete inputs *)

Lemma fetch_weather_data_without_key_witness :
  WEATHER_API_KEY no_keys = EmptyString /\
  fetch_weather_data repr_stub http_paris "Paris" no_keys
  = (WeatherError "WEATHER_API_KEY not set", no_keys).
Proof.
  split.
  - reflexivity.
  - apply (fetch_weather_data_without_key repr_stub http_paris "Paris" no_keys).
    reflexivity.
Defined.


Lemma fetch_weather_without_location_witness :
  fetch_weather_node repr_stub http_paris unknown_state with_keys
  = (set_error
       "No location specified. Please include a city or location in your query."
       unknown_state, with_keys) /\
  run (create_agent_graph repr_stub dumps_stub llm_paris http_paris) 2
    "fetch_weather" unknown_state ["extract_location"] with_keys
  = (Ok (set_recommendations
           "⚠️ **Error**: No location specified. Please include a city or location in your query.

Please try again with a different query or check your API keys."
           (set_error
              "No location specified. Please include a city or location in your query."
              unknown_state),
         ["extract_location"; "fetch_weather"; "error"]), with_keys).
Proof.
  apply (fetch_weather_without_location repr_stub dumps_stub llm_paris
           http_paris 0 unknown_state ["extract_location"] with_keys).
  left. reflexivity.
Defined.

Lemma weather_failure_reported_witness :
  exists final,
    invoke (create_agent_graph repr_stub dumps_stub llm_paris http_timeout)
      (initial_state paris_query) with_keys
    = (Ok (final, ["extract_location"; "fetch_weather"; "error"]),
       snd (fetch_weather_data repr_stub http_timeout "Paris"
              (snd (extract_location_node llm_paris
                      (initial_state paris_query) with_keys)))) /\
    error final = "Weather API error: Read timed out." /\
    recommendations final
    = "⚠️ **Error**: " ++ "Weather API error: Read timed out." ++ "

Please try again with a different query or check your API keys." /\
    filter is_llm_call
      (calls (snd (fetch_weather_data repr_stub http_timeout "Paris"
                     (snd (extract_location_node llm_paris
                             (initial_state paris_query) with_keys)))))
    = filter is_llm_call
        (calls (snd (extract_location_node llm_paris
                       (initial_state paris_query) with_keys))).
Proof.
  apply (weather_failure_reported repr_stub dumps_stub llm_paris http_timeout
           paris_query "Weather API error: Read timed out."
           (fst (extract_location_node llm_paris
                   (initial_state paris_query) with_keys))
           with_keys
           (snd (extract_location_node llm_paris
                   (initial_state paris_query) with_keys))
           (snd (fetch_weather_data repr_stub http_timeout "Paris"
                   (snd (extract_location_node llm_paris
                           (initial_state paris_query) with_keys)))));
    reflexivity.
Defined.

Lemma analyze_node_contract_witness :
  (truthy (weather_data (initial_state paris_query)) = false ->
   analyze_and_recommend_node dumps_stub llm_paris
     (initial_state paris_query) with_keys
   = (set_error "No weather data available" (initial_state paris_query),
      with_keys)) /\
  (truthy (weather_data (initial_state paris_query)) = true ->
   exists llm msgs,
     snd (analyze_and_recommend_node dumps_stub llm_paris
            (initial_state paris_query) with_keys)
     = log (LLMCall llm msgs) with_keys /\
     forall content,
       llm_paris llm msgs = Ok content ->
       fst (analyze_and_recommend_node dumps_stub llm_paris
              (initial_state paris_query) with_keys)
       = append_message (AIMessage "Generated recommendations")
           (set_recommendations content (initial_state paris_query))).
Proof.
  apply (analyze_node_contract dumps_stub llm_paris
           (initial_state paris_query) with_keys).
  reflexivity.
Defined.

Lemma process_query_deterministic_witness :
  fst (process_query repr_stub dumps_stub llm_paris http_paris paris_query
         "gsk_test" EmptyString with_keys)
  = fst (process_query repr_stub dumps_stub llm_paris http_paris paris_query
           "gsk_test" EmptyString
           (snd (process_query repr_stub dumps_stub llm_paris http_paris
                   paris_query "gsk_test" EmptyString with_keys)))
  /\
  same_keys
    (snd (process_query repr_stub dumps_stub llm_paris http_paris paris_query
            "gsk_test" EmptyString with_keys))
    (snd (process_query repr_stub dumps_stub llm_paris http_paris paris_query
            "gsk_test" EmptyString
            (snd (process_query repr_stub dumps_stub llm_paris http_paris
                    paris_query "gsk_test" EmptyString with_keys)))).
Proof.
  apply (process_query_deterministic repr_stub dumps_stub llm_paris http_paris
           paris_query "gsk_test" EmptyString with_keys
           (snd (process_query repr_stub dumps_stub llm_paris http_paris
                   paris_query "gsk_test" EmptyString with_keys))).
  split; reflexivity.
Defined.

Lemma normalise_partial_response_witness :
  partial_response sparse_response = true /\
  exists summary,
    normalise repr_stub sparse_response = Ok (JObj summary) /\
    lookup "location" summary = Some (JStr "None, None") /\
    lookup "local_time" summary = Some JNull /\
    lookup "alerts" summary = None.
Proof.
  split; [reflexivity |].
  destruct (normalise_partial_response repr_stub sparse_response eq_refl)
    as (summary & E & Hloc & Htime & _ & _ & Hal).
  exists summary. repeat split; assumption.
Defined.

(** C1: a run in which the chat model extracts "Paris", the weather provider
    answers and the chat model then fails on the recommendation request.
    The recommendation node records the failure in [error], the run ends
    there without passing through the error node, and [process_query]
    returns the empty [recommendations] text. *)
Lemma analyze_failure_skips_error_node :
  fst (process_query repr_stub dumps_stub llm_paris_then_fails http_paris
         paris_query "gsk_test" "wk_test" no_keys) = EmptyString /\
  match fst (invoke (create_agent_graph repr_stub dumps_stub
                       llm_paris_then_fails http_paris)
               (initial_state paris_query) with_keys) with
  | Ok (final, path) =>
      error final = "Recommendation generation error: rate limit exceeded" /\
      recommendations final = EmptyString /\
      path = ["extract_location"; "fetch_weather"; "analyze"]
  | Raise _ => False
  end.
Proof.
  vm_compute. repeat split.
Qed.


(** C7 fails without a [GROQ_API_KEY]: on empty [weather_data] the
    recommendation node then records the missing key, not "No weather data
    available". *)
Lemma analyze_without_groq_key :
  truthy (weather_data (initial_state paris_query)) = false /\
  error (fst (analyze_and_recommend_node dumps_stub llm_paris
                (initial_state paris_query) no_keys))
  = "Recommendation generation error: GROQ_API_KEY not set. Please set it as an environment variable."
  /\
  error (fst (analyze_and_recommend_node dumps_stub llm_paris
                (initial_state paris_query) no_keys))
  <> "No weather data available".
Proof.
  repeat split. vm_compute. discriminate.
Qed.

(** C6 fails for the provider's [name] and [country]: when they are
    missing, the [location] entry of the summary is not [None] but the
    text "None, None". *)
Lemma missing_location_becomes_text :
  partial_response (JObj []) = true /\
  path_get (JObj []) ["location"; "name"] = JNull /\
  path_get (JObj []) ["location"; "country"] = JNull /\
  match normalise repr_stub (JObj []) with
  | Ok summary =>
      path_get summary ["location"] = JStr "None, None" /\
      path_get summary ["location"] <> JNull
  | Raise _ => False
  end.
Proof.
  vm_compute. repeat split. discriminate.
Qed.

(** ** Three runs from start to end *)

(** The chat model extracts "Paris", the provider answers, the chat model
    answers: the text returned is the model's, after three requests. *)
Example paris_run :
  fst (process_query repr_stub dumps_stub llm_paris http_paris paris_query
         "gsk_test" "wk_test" no_keys) = "Take an umbrella." /\
  map is_llm_call
    (calls (snd (process_query repr_stub dumps_stub llm_paris http_paris
                   paris_query "gsk_test" "wk_test" no_keys)))
  = [true; false; true].
Proof.
  vm_compute. split; reflexivity.
Qed.

(** The chat model finds no location: the text returned is the error node's
    message for the guidance text, after the one extraction request. *)
Example unknown_location_run :
  fst (process_query repr_stub dumps_stub llm_unknown http_paris
         "What's the weather like?" "gsk_test" "wk_test" no_keys)
  = error_text no_location_message /\
  map is_llm_call
    (calls (snd (process_query repr_stub dumps_stub llm_unknown http_paris
                   "What's the weather like?" "gsk_test" "wk_test" no_keys)))
  = [true].
Proof.
  vm_compute. split; reflexivity.
Qed.

(** The provider times out: the text returned carries the timeout text. *)
Example timeout_run :
  fst (process_query repr_stub dumps_stub llm_paris http_timeout paris_query
         "gsk_test" "wk_test" no_keys)
  = error_text "Weather API error: Read timed out.".
Proof.
  vm_compute. reflexivity.
Qed.

(** A key that is present but bound to [None] is not a missing key: the
    lookup on it fails, and the weather client reports the failure. *)
Example null_block_is_reported :
  normalise repr_stub (JObj [("current", JNull)])
  = Raise (OtherException "'NoneType' object has no attribute 'get'") /\
  fst (fetch_weather_data repr_stub
         (fun _ _ => Ok (JObj [("current", JNull)])) "Paris" with_keys)
  = WeatherError "Unexpected error: 'NoneType' object has no attribute 'get'".
Proof.
  vm_compute. split; reflexivity.
Qed.

(** * The further statements at concrete inputs *)

Lemma run_keeps_query_and_log_witness :
  user_query
    (set_recommendations (error_text no_location_message)
       (set_error no_location_message unknown_state))
  = user_query unknown_state /\
  exists ran added,
    ["extract_location"; "fetch_weather"; "error"]
    = (["extract_location"] ++ ran)%list /\
    messages
      (set_recommendations (error_text no_location_message)
         (set_error no_location_message unknown_state))
    = (messages unknown_state ++ added)%list /\
    length added <= length ran /\
    forallb is_ai_message added = true.
Proof.
  apply (run_keeps_query_and_log repr_stub dumps_stub llm_paris http_paris
           25 "fetch_weather" unknown_state ["extract_location"] with_keys
           _ _ with_keys).
  reflexivity.
Defined.

Lemma run_keeps_error_witness :
  str_truthy
    (error (set_recommendations (error_text no_location_message)
              (set_error no_location_message failed_state))) = true.
Proof.
  apply (run_keeps_error repr_stub dumps_stub llm_paris http_paris
           25 "fetch_weather" failed_state ["extract_location"] with_keys
           _ ["extract_location"; "fetch_weather"; "error"] with_keys).
  - reflexivity.
  - reflexivity.
Defined.

Lemma analyze_receives_normalised_weather_witness :
  usable_location (location paris_final) = true /\
  truthy (weather_data paris_final) = true /\
  exists data,
    http_paris forecast_url
      (forecast_params (WEATHER_API_KEY with_keys) (location paris_final))
    = Ok data /\
    normalise repr_stub data = Ok (weather_data paris_final).
Proof.
  apply (analyze_receives_normalised_weather repr_stub dumps_stub llm_paris
           http_paris (initial_state paris_query) paris_final
           ["extract_location"; "fetch_weather"; "analyze"]
           with_keys paris_world).
  - vm_compute. reflexivity.
  - reflexivity.
Defined.

Lemma successful_run_witness :
  process_query repr_stub dumps_label llm_paris http_paris paris_query
    "gsk_test" "wk_test" no_keys
  = ("Take an umbrella.",
     extend (set_keys "gsk_test" "wk_test" no_keys)
       [location_request "gsk_test" paris_query;
        weather_request "wk_test" (strip " Paris ");
        recommend_request "gsk_test" paris_query
          (dumps_label paris_summary)]).
Proof.
  apply (successful_run repr_stub dumps_label llm_paris http_paris
           paris_query "gsk_test" "wk_test" "gsk_test" "wk_test" " Paris "
           "Take an umbrella." paris_response paris_summary no_keys);
    vm_compute; reflexivity.
Defined.

Lemma extraction_failure_run_witness :
  process_query repr_stub dumps_stub llm_down http_paris paris_query
    "gsk_test" "wk_test" no_keys
  = ("⚠️ **Error**: Location extraction error: "
     ++ exn_str (OtherException "Connection error.") ++ "

Please try again with a different query or check your API keys.",
     extend (set_keys "gsk_test" "wk_test" no_keys)
       [location_request "gsk_test" paris_query]).
Proof.
  apply (extraction_failure_run repr_stub dumps_stub llm_down http_paris
           paris_query "gsk_test" "wk_test" "gsk_test"
           (OtherException "Connection error.") no_keys);
    reflexivity.
Defined.

Lemma no_location_run_witness :
  process_query repr_stub dumps_stub llm_padded_unknown http_paris
    "What's the weather like?" "gsk_test" "wk_test" no_keys
  = ("⚠️ **Error**: No location specified. Please include a city or location in your query.

Please try again with a different query or check your API keys.",
     extend (set_keys "gsk_test" "wk_test" no_keys)
       [location_request "gsk_test" "What's the weather like?"]).
Proof.
  apply (no_location_run repr_stub dumps_stub llm_padded_unknown http_paris
           "What's the weather like?" "gsk_test" "wk_test" "gsk_test"
           (bytes [194; 160; 32] ++ "unknown" ++ bytes [226; 128; 168])
           [bytes [194; 160]; bytes [32]] [bytes [226; 128; 168]] no_keys);
    try reflexivity.
  left. reflexivity.
Defined.

Lemma requests_need_inputs_witness :
  str_truthy (str_or "gsk_test" (GROQ_API_KEY no_keys)) = true /\
  str_truthy (str_or "wk_test" (WEATHER_API_KEY no_keys)) = true /\
  forall chars,
    forallb is_whitespace chars = true -> paris_query <> join chars.
Proof.
  apply (requests_need_inputs repr_stub dumps_stub llm_paris http_paris
           paris_query "gsk_test" "wk_test" no_keys).
  vm_compute. discriminate.
Defined.

Lemma blank_query_rejected_witness :
  process_query repr_stub dumps_stub llm_paris http_paris blank_query
    "gsk_test" "wk_test" no_keys
  = ("❌ Please enter a query", set_keys "gsk_test" "wk_test" no_keys).
Proof.
  apply (blank_query_rejected repr_stub dumps_stub llm_paris http_paris
           blank_pieces "gsk_test" "wk_test" no_keys);
    reflexivity.
Defined.

Lemma normalise_schema_witness :
  exists fields,
    paris_summary = JObj fields /\
    (map fst fields = summary_keys \/
     map fst fields = (summary_keys ++ ["alerts"])%list) /\
    (exists label, lookup "location" fields = Some (JStr label)) /\
    (exists cur,
       lookup "current" fields = Some cur /\ has_keys current_table cur) /\
    (exists days,
       lookup "forecast" fields = Some (JArr days) /\
       Forall (has_keys day_table) days) /\
    (forall alerts,
       lookup "alerts" fields = Some alerts ->
       exists recs,
         alerts = JArr recs /\ recs <> [] /\
         Forall (has_keys alert_table) recs).
Proof.
  apply (normalise_schema repr_stub paris_response paris_summary).
  vm_compute. reflexivity.
Defined.

Lemma alerts_entry_iff_witness :
  lookup "alerts" zero_alert_fields <> None
  <-> truthy (path_get zero_alert_response ["alerts"; "alert"]) = true.
Proof.
  apply (alerts_entry_iff repr_stub zero_alert_response zero_alert_fields).
  vm_compute. reflexivity.
Defined.

Lemma falsy_alert_is_no_alert_witness :
  normalise repr_stub
    (JObj [("alerts", JObj [("alert", JNum (NInt 0))]);
           ("current", JObj [("temp_c", JNum (NInt 15))])])
  = normalise repr_stub (JObj [("current", JObj [("temp_c", JNum (NInt 15))])]).
Proof.
  apply (falsy_alert_is_no_alert repr_stub
           [("current", JObj [("temp_c", JNum (NInt 15))])]
           [("alert", JNum (NInt 0))]);
    reflexivity.
Defined.

Lemma no_weather_data_not_reported_witness :
  error paris_final <> "No weather data available".
Proof.
  apply (no_weather_data_not_reported repr_stub dumps_stub llm_paris
           http_paris paris_query paris_final
           ["extract_location"; "fetch_weather"; "analyze"]
           with_keys paris_world).
  vm_compute. reflexivity.
Defined.

Lemma process_query_returns_recommendations_witness :
  exists final path,
    fst (invoke (create_agent_graph repr_stub dumps_stub llm_paris http_paris)
           (initial_state paris_query)
           (set_keys "gsk_test" "wk_test" no_keys))
    = Ok (final, path) /\
    process_query repr_stub dumps_stub llm_paris http_paris paris_query
      "gsk_test" "wk_test" no_keys
    = (recommendations final,
       snd (invoke (create_agent_graph repr_stub dumps_stub llm_paris
                      http_paris)
              (initial_state paris_query)
              (set_keys "gsk_test" "wk_test" no_keys))).
Proof.
  apply (process_query_returns_recommendations repr_stub dumps_stub llm_paris
           http_paris paris_query "gsk_test" "wk_test" no_keys);
    reflexivity.
Defined.
